(** * The search query compiler of [src/index.js]

    The [GET /search] handler turns the request's query parameters into one
    parameterized SQL statement and its list of bound values, following one
    of three strategies (semantic, full-text with optional fuzzy match,
    filter-only).  This file embeds the handler's query construction and
    proves the properties the specification states about it.

    Strings are byte strings.  The handler only ever splits on [","] and
    [":"], tests strings for emptiness and concatenates them, and these
    operations agree on UTF-8 bytes and on JavaScript's UTF-16 code units. *)

From Stdlib Require Import String Ascii List Bool Arith Lia ZArith QArith.
From Stdlib Require Import Permutation DecimalString DecimalNat.
Import ListNotations.

Open Scope string_scope.
Open Scope list_scope.
Open Scope nat_scope.

(** * The embedding of the handler *)

(** ** JavaScript strings and arrays *)

(** A string is falsy exactly when it is empty. *)
Definition truthy (s : string) : bool :=
  match s with
  | EmptyString => false
  | String _ _ => true
  end.

(** [s.split(sep)] for a one-character separator: every occurrence of the
    separator ends a segment, and the empty string gives one empty segment. *)
Fixpoint split (sep : ascii) (s : string) : list string :=
  match s with
  | EmptyString => [EmptyString]
  | String c rest =>
      if Ascii.eqb c sep then EmptyString :: split sep rest
      else match split sep rest with
           | [] => [String c EmptyString]
           | seg :: segs => String c seg :: segs
           end
  end.

(** [arr.join(sep)] on an array of strings. *)
Fixpoint join (sep : string) (arr : list string) : string :=
  match arr with
  | [] => EmptyString
  | [s] => s
  | s :: rest => (s ++ sep ++ join sep rest)%string
  end.

(** Number to string conversion of a template literal, for the non-negative
    integers the parameter cursor ranges over. *)
Definition show_nat (n : nat) : string :=
  NilEmpty.string_of_uint (Nat.to_uint n).

(** ** Query text

    The handler assembles the statement from template literals.  The text is
    kept as the sequence of its parts: fixed template text, a positional
    placeholder [$n] (written [$${...}] or [$1] in the source) and request
    text substituted by [${...}].  [render] gives the string handed to the
    store. *)
Inductive piece : Type :=
| Lit (s : string)
| Ph (n : nat)
| Raw (s : string).

Definition sqltext : Type := list piece.

Definition render_piece (p : piece) : string :=
  match p with
  | Lit s => s
  | Ph n => ("$" ++ show_nat n)%string
  | Raw s => s
  end.

Fixpoint render (q : sqltext) : string :=
  match q with
  | [] => EmptyString
  | p :: rest => (render_piece p ++ render rest)%string
  end.

(** The placeholders of a text, in the order they occur in it. *)
Fixpoint placeholders (q : sqltext) : list nat :=
  match q with
  | [] => []
  | Ph n :: rest => n :: placeholders rest
  | _ :: rest => placeholders rest
  end.

(** [frags.join(sep)] on text fragments. *)
Fixpoint join_pieces (sep : string) (frags : list sqltext) : sqltext :=
  match frags with
  | [] => []
  | [f] => f
  | f :: rest => f ++ Lit sep :: join_pieces sep rest
  end.

Definition dq : string := String (ascii_of_nat 34) EmptyString.
Definition nl : string := String (ascii_of_nat 10) EmptyString.

(** A double-quoted SQL identifier. *)
Definition ident (name : string) : string := (dq ++ name ++ dq)%string.

(** ** Bound values *)

(** A value of the parameter list: request text, or one of the numeric
    defaults of [limit] and [offset]. *)
Inductive value : Type :=
| VStr (s : string)
| VNum (n : Z).

(** The parameter [$n] of a statement is the [n]-th bound value, counted
    from one. *)
Definition bound_at (n : nat) (vals : list value) : option value :=
  match n with
  | O => None
  | S i => nth_error vals i
  end.

(** ** The request *)

(** [request.query]: each parameter is absent or a string. *)
Record request_query : Type := mkRequestQuery {
  rq_query : option string;
  rq_tags : option string;
  rq_subject : option string;
  rq_examboard : option string;
  rq_level : option string;
  rq_type : option string;
  rq_limit : option string;
  rq_offset : option string;
  rq_sort : option string;
  rq_fuzzy : option string;
  rq_semantic : option string
}.

(** The handler's local constants after the destructuring with defaults. *)
Record params : Type := mkParams {
  query : string;
  tags : string;
  subject : string;
  examboard : string;
  level : string;
  type : string;
  limit : value;
  offset : value;
  sort : string;
  fuzzy : string;
  semantic : string
}.

Definition default {A : Type} (d : A) (o : option A) : A :=
  match o with
  | Some a => a
  | None => d
  end.

Definition destructure (rq : request_query) : params :=
  {| query := default EmptyString (rq_query rq);
     tags := default EmptyString (rq_tags rq);
     subject := default EmptyString (rq_subject rq);
     examboard := default EmptyString (rq_examboard rq);
     level := default EmptyString (rq_level rq);
     type := default EmptyString (rq_type rq);
     limit := default (VNum 20) (option_map VStr (rq_limit rq));
     offset := default (VNum 0) (option_map VStr (rq_offset rq));
     sort := default "averagerating:desc" (rq_sort rq);
     fuzzy := default "true" (rq_fuzzy rq);
     semantic := default "false" (rq_semantic rq) |}.

(** ** Building the WHERE filters *)

Definition parsedTags (p : params) : list string :=
  if truthy (tags p) then split "," (tags p) else [].

(** The three mutable locals of the filter building. *)
Record builder : Type := mkBuilder {
  filters : list sqltext;
  values : list value;
  paramIndex : nat
}.

Definition builder_init : builder :=
  {| filters := []; values := []; paramIndex := 1 |}.

(** [`"tags" @> ARRAY[$${i}]`] and [`"col" = $${i}`]. *)
Definition containment (i : nat) : sqltext :=
  [Lit (ident "tags" ++ " @> ARRAY["); Ph i; Lit "]"].

Definition equality (col : string) (i : nat) : sqltext :=
  [Lit (ident col ++ " = "); Ph i].

(** [parsedTags.map(tag => ...$${paramIndex++}...)]: one containment
    fragment per tag, the cursor advanced once per tag. *)
Fixpoint tag_fragments (ts : list string) (idx : nat) : list sqltext * nat :=
  match ts with
  | [] => ([], idx)
  | _ :: rest =>
      let '(frags, idx') := tag_fragments rest (S idx) in
      (containment idx :: frags, idx')
  end.

Definition push_tags (ts : list string) (b : builder) : builder :=
  if 0 <? List.length ts then
    let '(frags, idx') := tag_fragments ts (paramIndex b) in
    {| filters := filters b ++ [join_pieces " AND " frags];
       values := values b ++ map VStr ts;
       paramIndex := idx' |}
  else b.

(** [if (v) { filters.push(`"col" = $${paramIndex++}`); values.push(v); }] *)
Definition push_scalar (col v : string) (b : builder) : builder :=
  if truthy v then
    {| filters := filters b ++ [equality col (paramIndex b)];
       values := values b ++ [VStr v];
       paramIndex := S (paramIndex b) |}
  else b.

Definition build_filters (p : params) : builder :=
  let b := builder_init in
  let b := push_tags (parsedTags p) b in
  let b := push_scalar "subject" (subject p) b in
  let b := push_scalar "examboard" (examboard p) b in
  let b := push_scalar "level" (level p) b in
  let b := push_scalar "type" (type p) b in
  b.

Definition whereClause (b : builder) : sqltext :=
  if 0 <? List.length (filters b)
  then Lit "WHERE " :: join_pieces " AND " (filters b)
  else [].

(** ** Sorting *)

(** [const [sortField, sortDir] = sort.toString().split(":")]: the first
    two segments, the second [undefined] when the value has no [":"]. *)
Definition sortField (sort : string) : string :=
  nth 0 (split ":" sort) EmptyString.

Definition sortDir (sort : string) : option string :=
  nth_error (split ":" sort) 1.

Definition validSortDir (sort : string) : string :=
  match sortDir sort with
  | Some d => if (d =? "asc")%string || (d =? "desc")%string then d else "desc"
  | None => "desc"
  end.

Definition orderBy (sort : string) : sqltext :=
  if truthy (sortField sort)
  then [Lit dq; Raw (sortField sort); Lit dq; Lit " "; Lit (validSortDir sort)]
  else [Lit (ident "averagerating" ++ " DESC")].

(** ** The three strategies *)

Inductive strategy : Type :=
| Semantic
| FullText
| FilterOnly.

(** What is handed to [db.query(sql, values)]. *)
Record plan : Type := mkPlan {
  plan_sql : sqltext;
  plan_values : list value
}.

Definition select_columns : string :=
  nl ++ "        SELECT id, title, description, " ++ ident "averagerating"
     ++ ", subject, " ++ ident "examboard" ++ ", level, type".

(** [LIMIT $${i} OFFSET $${i + 1};] and the end of the template. *)
Definition limit_offset (i : nat) : sqltext :=
  [Lit (nl ++ "        LIMIT "); Ph i; Lit " OFFSET "; Ph (i + 1);
   Lit (";" ++ nl ++ "      ")].

(** [`[${embedding.join(",")}]`]; the numbers of the embedding are taken in
    their text form. *)
Definition embeddingLiteral (embedding : list string) : string :=
  "[" ++ join "," embedding ++ "]".

(** *** Semantic search *)

Definition semantic_sql (b : builder) (ob : sqltext) : sqltext :=
  [Lit (select_columns ++ "," ++ nl ++ "               1 - (embedding <-> ");
   Ph (paramIndex b);
   Lit (") AS semantic_score" ++ nl ++ "        FROM resources" ++ nl
          ++ "        ")]
  ++ whereClause b
  ++ [Lit (nl ++ "        ORDER BY semantic_score DESC, ")]
  ++ ob
  ++ limit_offset (paramIndex b + 1).

Definition semantic_plan (p : params) (b : builder) (ob : sqltext)
    (embedding : list string) : plan :=
  {| plan_sql := semantic_sql b ob;
     plan_values :=
       values b ++ [VStr (embeddingLiteral embedding); limit p; offset p] |}.

(** *** Full-text search with optional fuzzy match *)

(** The text condition; the query text is pushed once per condition and the
    cursor advanced each time. *)
Definition searchCondition (p : params) (b : builder) : sqltext * builder :=
  let cond :=
    [Lit (ident "search_tsv" ++ " @@ plainto_tsquery('english', ");
     Ph (paramIndex b); Lit ")"] in
  let b1 :=
    {| filters := filters b;
       values := values b ++ [VStr (query p)];
       paramIndex := S (paramIndex b) |} in
  if (fuzzy p =? "true")%string then
    ([Lit "("] ++ cond
       ++ [Lit (" OR " ++ ident "title" ++ " % "); Ph (paramIndex b1); Lit ")"],
     {| filters := filters b1;
        values := values b1 ++ [VStr (query p)];
        paramIndex := S (paramIndex b1) |})
  else (cond, b1).

(** The projected columns; both score columns name [$1]. *)
Definition fulltext_projection : sqltext :=
  [Lit (select_columns ++ "," ++ nl ++ "               ts_rank("
          ++ ident "search_tsv" ++ ", plainto_tsquery('english', ");
   Ph 1;
   Lit (")) AS rank," ++ nl ++ "               similarity(" ++ ident "title"
          ++ ", ");
   Ph 1;
   Lit (") AS fuzzy_score" ++ nl)].

Definition fulltext_where (wc cond : sqltext) : sqltext :=
  [Lit ("        FROM " ++ ident "resources" ++ nl ++ "        ")]
  ++ (if truthy (render wc) then wc ++ [Lit " AND "] else [Lit "WHERE "])
  ++ [Lit " "] ++ cond.

Definition fulltext_order (ob : sqltext) : sqltext :=
  [Lit (nl ++ "        ORDER BY rank DESC, fuzzy_score DESC, ")] ++ ob.

(** Everything after the projection: the part of the statement whose
    placeholders come from the parameter cursor. *)
Definition fulltext_body (p : params) (b : builder) (ob : sqltext) : sqltext :=
  let '(cond, b') := searchCondition p b in
  fulltext_where (whereClause b) cond
  ++ fulltext_order ob
  ++ limit_offset (paramIndex b').

Definition fulltext_plan (p : params) (b : builder) (ob : sqltext) : plan :=
  {| plan_sql := fulltext_projection ++ fulltext_body p b ob;
     plan_values := values (snd (searchCondition p b)) ++ [limit p; offset p] |}.

(** *** Filters and sorting only *)

Definition filter_only_sql (b : builder) (ob : sqltext) : sqltext :=
  [Lit (select_columns ++ nl ++ "        FROM " ++ ident "resources" ++ nl
          ++ "        ")]
  ++ whereClause b
  ++ [Lit (nl ++ "        ORDER BY ")]
  ++ ob
  ++ limit_offset (paramIndex b).

Definition filter_only_plan (p : params) (b : builder) (ob : sqltext) : plan :=
  {| plan_sql := filter_only_sql b ob;
     plan_values := values b ++ [limit p; offset p] |}.

(** ** The handler *)

Definition semanticEnabled (p : params) : bool := (semantic p =? "true")%string.
Definition fuzzyEnabled (p : params) : bool := (fuzzy p =? "true")%string.

(** The embedding service: the embedding of a text, or a failure. *)
Definition embedding_service : Type := string -> option (list string).

(** The handler runs one branch.  The branch either hands a plan to the
    store, or throws before it does (the embedding call failed) and the
    handler replies with status 500. *)
Inductive outcome : Type :=
| Executed (s : strategy) (pl : plan)
| Failed (s : strategy).

Definition search (embed : embedding_service) (p : params) : outcome :=
  let b := build_filters p in
  let ob := orderBy (sort p) in
  if semanticEnabled p && truthy (query p) then
    match embed (query p) with
    | Some embedding => Executed Semantic (semantic_plan p b ob embedding)
    | None => Failed Semantic
    end
  else if truthy (query p) then Executed FullText (fulltext_plan p b ob)
  else Executed FilterOnly (filter_only_plan p b ob).

Definition strategy_of (o : outcome) : strategy :=
  match o with
  | Executed s _ => s
  | Failed s => s
  end.

Definition plan_of (o : outcome) : option plan :=
  match o with
  | Executed _ pl => Some pl
  | Failed _ => None
  end.

(** The statement text and the parameter list as the store receives them. *)
Definition compiled (o : outcome) : option (string * list value) :=
  option_map (fun pl => (render (plan_sql pl), plan_values pl)) (plan_of o).

(** ** Requests used as examples *)

Definition no_embedding : embedding_service := fun _ => None.

(** Scenario A: an empty [query] with
    [{subject:"Maths", limit:10, offset:0}]. *)
Definition scenario_A : params :=
  destructure (mkRequestQuery (Some EmptyString) None (Some "Maths") None
                 None None (Some "10") (Some "0") None None None).

(** Scenario B: [{query:"algebra", fuzzy:"true", semantic:"false"}]. *)
Definition scenario_B : params :=
  destructure (mkRequestQuery (Some "algebra") None None None None None
                 None None None (Some "true") (Some "false")).

(** Scenario C: [{query:"algebra", semantic:"true"}]. *)
Definition semantic_algebra : params :=
  destructure (mkRequestQuery (Some "algebra") None None None None None
                 None None None None (Some "true")).

(** Two embedding services that agree on "algebra" only. *)
Definition embed_any : embedding_service := fun _ => Some ["0.1"; "0.2"].

Definition embed_algebra : embedding_service :=
  fun s => if (s =? "algebra")%string then Some ["0.1"; "0.2"] else None.

(** Scenario D: [{tags:"gcse,revision", subject:"Physics"}]. *)
Definition scenario_D : params :=
  destructure (mkRequestQuery None (Some "gcse,revision") (Some "Physics")
                 None None None None None None None None).

(** [{sort:"price:asc"}]. *)
Definition sort_by_price : params :=
  destructure (mkRequestQuery None None None None None None None None
                 (Some "price:asc") None None).

(** [{query:"algebra", fuzzy:"false"}]. *)
Definition algebra_without_fuzzy : params :=
  destructure (mkRequestQuery (Some "algebra") None None None None None
                 None None None (Some "false") None).

(** [{query:"algebra", subject:"Maths"}]. *)
Definition algebra_in_maths : params :=
  destructure (mkRequestQuery (Some "algebra") None (Some "Maths") None None
                 None None None None None None).

(** [{query:"maths", subject:"maths"}]. *)
Definition maths_in_maths : params :=
  destructure (mkRequestQuery (Some "maths") None (Some "maths") None None
                 None None None None None None).

(** The request with another value of the [fuzzy] parameter. *)
Definition with_fuzzy (f : string) (p : params) : params :=
  {| query := query p; tags := tags p; subject := subject p;
     examboard := examboard p; level := level p; type := type p;
     limit := limit p; offset := offset p; sort := sort p;
     fuzzy := f; semantic := semantic p |}.

(** * Notions of the specification *)

(** ** The specification's reading of the sort parameter

    The specification splits the value on its first [":"] only: the field is
    the text before it and the direction all of the text after it. *)
Fixpoint split_first (sep : ascii) (s : string) : string * option string :=
  match s with
  | EmptyString => (EmptyString, None)
  | String c rest =>
      if Ascii.eqb c sep then (EmptyString, Some rest)
      else let '(field, dir) := split_first sep rest in (String c field, dir)
  end.

Definition spec_direction (dir : option string) : string :=
  match dir with
  | Some d => if (d =? "asc")%string || (d =? "desc")%string then d else "desc"
  | None => "desc"
  end.

Definition spec_orderBy (sort : string) : sqltext :=
  let '(field, dir) := split_first ":" sort in
  if truthy field
  then [Lit dq; Raw field; Lit dq; Lit " "; Lit (spec_direction dir)]
  else [Lit (ident "averagerating" ++ " DESC")].

(** The sort value with everything from its second [":"] on removed. *)
Definition first_two_segments (sort : string) : string :=
  match split_first ":" sort with
  | (field, Some rest) => field ++ ":" ++ fst (split_first ":" rest)
  | (field, None) => field
  end.

(** The sortable attributes the specification lists.  The handler has no
    such list. *)
Definition sort_allow_list : list string :=
  ["subject"; "examboard"; "level"; "type"; "averagerating"; "title"].

(** ** The score columns of the full-text statement

    The store evaluates [ts_rank("search_tsv", plainto_tsquery('english', $i))]
    and [similarity("title", $j)] on each row, with the values bound at [$i]
    and [$j].  The two functions of the store are parameters. *)
Definition rank_param : nat := nth 0 (placeholders fulltext_projection) 0.
Definition fuzzy_score_param : nat := nth 1 (placeholders fulltext_projection) 0.

Section Store.
Variable row : Type.
Variable ts_rank : row -> value -> Q.
Variable similarity : row -> value -> Q.
Definition rank (pl : plan) (r : row) : option Q :=
  option_map (ts_rank r) (bound_at rank_param (plan_values pl)).
Definition fuzzy_score (pl : plan) (r : row) : option Q :=
  option_map (similarity r) (bound_at fuzzy_score_param (plan_values pl)).
End Store.

(** ** Filters, cursor and numbering *)

(** The non-empty scalar filters as (column, value) pairs, in the order the
    handler tests them. *)
Definition scalar_filters (p : params) : list (string * string) :=
  filter (fun cv => truthy (snd cv))
    [("subject", subject p); ("examboard", examboard p);
     ("level", level p); ("type", type p)].

(** The cursor is one past the bound values, and the placeholders of the
    fragments emitted so far are exactly the slots of these values. *)
Definition cursor_invariant (b : builder) : Prop :=
  paramIndex b = 1 + List.length (values b)
  /\ concat (map placeholders (filters b)) = seq 1 (List.length (values b))
  /\ Forall (fun f => placeholders f <> []) (filters b).

Definition numbered_in_order (pl : plan) : Prop :=
  placeholders (plan_sql pl) = seq 1 (List.length (plan_values pl)).

Definition numbered_once (pl : plan) : Prop :=
  Permutation (placeholders (plan_sql pl))
    (seq 1 (List.length (plan_values pl))).

(** The statement ends in [LIMIT $(n-1) OFFSET $n;] and the last two of
    its [n] bound values, which these placeholders name, are [limit] and
    [offset]. *)
Definition limit_offset_last (p : params) (pl : plan) : Prop :=
  let n := List.length (plan_values pl) in
  (exists before : sqltext, plan_sql pl = before ++ limit_offset (n - 1))
  /\ bound_at (n - 1) (plan_values pl) = Some (limit p)
  /\ bound_at n (plan_values pl) = Some (offset p).

(** ** Placeholders in the rendered text *)

Definition is_digit (c : ascii) : bool :=
  (48 <=? nat_of_ascii c) && (nat_of_ascii c <=? 57).

Definition is_dollar (c : ascii) : bool := Ascii.eqb c "$".

(** The longest prefix of digits. *)
Fixpoint digits_prefix (s : string) : string :=
  match s with
  | EmptyString => EmptyString
  | String c rest =>
      if is_digit c then String c (digits_prefix rest) else EmptyString
  end.

Definition read_number (ds : string) : option nat :=
  match ds with
  | EmptyString => None
  | String _ _ => option_map Nat.of_uint (NilEmpty.uint_of_string ds)
  end.

(** Every [$] followed by digits in a text, as the number it names, in the
    order of the text. *)
Fixpoint text_placeholders (s : string) : list nat :=
  match s with
  | EmptyString => []
  | String c rest =>
      if is_dollar c then
        match read_number (digits_prefix rest) with
        | Some n => n :: text_placeholders rest
        | None => text_placeholders rest
        end
      else text_placeholders rest
  end.

Fixpoint no_dollar (s : string) : bool :=
  match s with
  | EmptyString => true
  | String c rest => negb (is_dollar c) && no_dollar rest
  end.

Fixpoint all_digits (s : string) : bool :=
  match s with
  | EmptyString => true
  | String c rest => is_digit c && all_digits rest
  end.

Definition starts_with_digit (s : string) : bool :=
  match s with
  | EmptyString => false
  | String c _ => is_digit c
  end.

(** A text followed by [after] in which the only [$] are those of its
    placeholders and no placeholder is followed by a digit. *)
Fixpoint plain (q : sqltext) (after : string) : bool :=
  match q with
  | [] => true
  | Lit s :: rest => no_dollar s && plain rest after
  | Raw s :: rest => no_dollar s && plain rest after
  | Ph _ :: rest =>
      negb (starts_with_digit (render rest ++ after)) && plain rest after
  end.

(** A text that may be followed by anything that does not start with a
    digit. *)
Definition closed (q : sqltext) : Prop :=
  forall t : string, starts_with_digit t = false -> plain q t = true.

(** * The handler with its collaborators

    The handler awaits the embedding service and the store, reads the clock
    and logs errors.  These calls are recorded in the order they are made;
    a call that throws ends the [try] block with the message of the error. *)

(** A request whose sort value is [x", $9, "y:asc]. *)
Definition sort_with_placeholder : params :=
  destructure (mkRequestQuery None None None None None None None None
                 (Some ("x" ++ dq ++ ", $9, " ++ dq ++ "y:asc")%string)
                 None None).

(** The ordering keys a branch puts before the requested sort. *)
Definition score_keys (s : strategy) : string :=
  match s with
  | Semantic => "semantic_score DESC, "
  | FullText => "rank DESC, fuzzy_score DESC, "
  | FilterOnly => EmptyString
  end.

(** Two full-text requests with the same tests and other texts. *)
Definition algebra_request : params :=
  destructure (mkRequestQuery (Some "algebra") (Some "gcse,revision")
                 (Some "Maths") None None None None None None None None).

Definition hostile_request : params :=
  destructure (mkRequestQuery (Some "x' OR 1=1; --") (Some "$1,$2")
                 (Some "Physics' --") None None None (Some "-5") (Some "abc")
                 None None None).

(** The request with another value of the [semantic] parameter. *)
Definition with_semantic (s : string) (p : params) : params :=
  {| query := query p; tags := tags p; subject := subject p;
     examboard := examboard p; level := level p; type := type p;
     limit := limit p; offset := offset p; sort := sort p;
     fuzzy := fuzzy p; semantic := s |}.

(** What the text of a statement depends on: the number of tags, which
    scalar filters are non-empty, the sort value, and the tests of the
    branches. *)
Definition statement_shape (p : params)
    : nat * list bool * string * bool * bool * bool :=
  (List.length (parsedTags p),
   map truthy [subject p; examboard p; level p; type p],
   sort p, fuzzyEnabled p, semanticEnabled p, truthy (query p)).

Fixpoint has_char (c : ascii) (s : string) : bool :=
  match s with
  | EmptyString => false
  | String a rest => Ascii.eqb a c || has_char c rest
  end.

Fixpoint count_char (c : ascii) (s : string) : nat :=
  match s with
  | EmptyString => 0
  | String a rest => (if Ascii.eqb a c then 1 else 0) + count_char c rest
  end.

Inductive call : Type :=
| CallEmbeddings (input : string)
| CallQuery (sql : string) (vals : list value)
| CallLogError (message : string).

Definition is_embeddings_call (c : call) : bool :=
  match c with
  | CallEmbeddings _ => true
  | _ => false
  end.

Definition is_query_call (c : call) : bool :=
  match c with
  | CallQuery _ _ => true
  | _ => false
  end.

Definition is_log_call (c : call) : bool :=
  match c with
  | CallLogError _ => true
  | _ => false
  end.

(** A computation of the handler: from the calls made so far to a result,
    or the message of a thrown error, and the calls made. *)
Definition M (A : Type) : Type := list call -> (string + A) * list call.

Definition ret {A : Type} (a : A) : M A := fun log => (inr a, log).

Definition bind {A B : Type} (m : M A) (k : A -> M B) : M B :=
  fun log =>
    match m log with
    | (inr a, log') => k a log'
    | (inl message, log') => (inl message, log')
    end.

(** An awaited call: recorded, then its result or its error. *)
Definition await {A : Type} (c : call) (result : string + A) : M A :=
  fun log => (result, log ++ [c]).

Notation "x <- m ;; k" := (bind m (fun x => k))
  (at level 61, m at next level, right associativity).

Section Handler.

Variable row : Type.

(** [openai.embeddings.create], [db.query] and the two readings of
    [Date.now()]. *)
Record collaborators : Type := mkCollaborators {
  embeddings_create : string -> string + list string;
  db_query : string -> list value -> string + list row;
  now_at_start : Z;
  now_at_end : Z
}.

(** The body of a successful reply. *)
Record envelope : Type := mkEnvelope {
  hits : list row;
  totalHits : nat;
  processingTimeMs : Z;
  reply_fuzzyEnabled : bool;
  reply_semanticEnabled : bool
}.

Inductive reply : Type :=
| Ok (body : envelope)
| ServerError (code : nat) (error message : string).

Definition await_embedding (c : collaborators) (input : string)
    : M (list string) :=
  await (CallEmbeddings input) (embeddings_create c input).

Definition await_query (c : collaborators) (pl : plan) : M (list row) :=
  await (CallQuery (render (plan_sql pl)) (plan_values pl))
    (db_query c (render (plan_sql pl)) (plan_values pl)).

(** The search strategy of the [try] block, down to [rows]. *)
Definition search_rows (c : collaborators) (p : params) : M (list row) :=
  let b := build_filters p in
  let ob := orderBy (sort p) in
  if semanticEnabled p && truthy (query p) then
    embedding <- await_embedding c (query p) ;;
    await_query c (semantic_plan p b ob embedding)
  else if truthy (query p) then await_query c (fulltext_plan p b ob)
  else await_query c (filter_only_plan p b ob).

Definition handler (c : collaborators) (rq : request_query)
    : reply * list call :=
  let p := destructure rq in
  match search_rows c p [] with
  | (inr rows, log) =>
      (Ok {| hits := rows;
             totalHits := List.length rows;
             processingTimeMs := (now_at_end c - now_at_start c)%Z;
             reply_fuzzyEnabled := (fuzzy p =? "true")%string;
             reply_semanticEnabled := (semantic p =? "true")%string |},
       log)
  | (inl message, log) =>
      (ServerError 500 "An error occurred while searching" message,
       log ++ [CallLogError message])
  end.

(** The embedding service as [search] takes it: the embedding, or a
    failure without its message. *)
Definition service (c : collaborators) : embedding_service :=
  fun input =>
    match embeddings_create c input with
    | inr embedding => Some embedding
    | inl _ => None
    end.

(** The embedding call of the semantic branch, when that branch is taken. *)
Definition embedding_calls (p : params) : list call :=
  if semanticEnabled p && truthy (query p)
  then [CallEmbeddings (query p)]
  else [].

End Handler.

Arguments embeddings_create {row}.
Arguments db_query {row}.
Arguments now_at_start {row}.
Arguments now_at_end {row}.
Arguments hits {row}.
Arguments totalHits {row}.
Arguments processingTimeMs {row}.
Arguments reply_fuzzyEnabled {row}.
Arguments reply_semanticEnabled {row}.
Arguments Ok {row}.
Arguments ServerError {row}.
Arguments await_embedding {row}.
Arguments await_query {row}.
Arguments search_rows {row}.
Arguments handler {row}.
Arguments service {row}.

(** Collaborators used as examples: a store that returns two rows for
    every statement, and an embedding service that is down. *)
Definition store_two_rows : collaborators nat :=
  {| embeddings_create := fun _ => inl "timeout";
     db_query := fun _ _ => inr [1; 2];
     now_at_start := 1000;
     now_at_end := 1012 |}.

(** [{query:"algebra", semantic:"true"}]. *)
Definition semantic_request : request_query :=
  mkRequestQuery (Some "algebra") None None None None None None None None
    None (Some "true").

(** [{subject:"Maths", limit:"-5", offset:"abc", semantic:"true"}]. *)
Definition paged_request : request_query :=
  mkRequestQuery None None (Some "Maths") None None None (Some "-5")
    (Some "abc") None None (Some "true").

(** What a run of the handler hands to the store. *)
Definition store_calls {row : Type} (run : reply row * list call) : list call :=
  filter is_query_call (snd run).

(** The route runs the handler once for each request, with the
    collaborators as they are when the request comes; the handler has no
    variable that outlives a request. *)
Definition serve {row : Type}
    (requests : list (collaborators row * request_query))
    : list (reply row * list call) :=
  map (fun cr => handler (fst cr) (snd cr)) requests.

(** Two states of the world: a store that answers and a store that is
    down, at other times, with embedding services that agree on "algebra"
    only. *)
Definition store_up : collaborators nat :=
  {| embeddings_create := fun _ => inr ["0.1"; "0.2"];
     db_query := fun _ _ => inr [1; 2];
     now_at_start := 1000;
     now_at_end := 1012 |}.

Definition store_down : collaborators nat :=
  {| embeddings_create :=
       fun input =>
         if (input =? "algebra")%string then inr ["0.1"; "0.2"]
         else inl "model overloaded";
     db_query := fun _ _ => inl "connection refused";
     now_at_start := 2000;
     now_at_end := 2900 |}.

(** * Properties *)

(** ** Texts and fragments *)

Lemma placeholders_app (a b : sqltext) :
  placeholders (a ++ b) = placeholders a ++ placeholders b.
Proof.
  induction a as [|[s|n|s] a IH]; simpl; rewrite ?IH; reflexivity.
Qed.

Lemma placeholders_join (sep : string) (frags : list sqltext) :
  placeholders (join_pieces sep frags) = concat (map placeholders frags).
Proof.
  induction frags as [|f [|g rest] IH].
  - reflexivity.
  - simpl. now rewrite app_nil_r.
  - change (join_pieces sep (f :: g :: rest))
      with (f ++ Lit sep :: join_pieces sep (g :: rest)).
    rewrite placeholders_app.
    change (placeholders (Lit sep :: join_pieces sep (g :: rest)))
      with (placeholders (join_pieces sep (g :: rest))).
    rewrite IH. reflexivity.
Qed.

Lemma concat_map_singleton {A B : Type} (f : A -> B) (l : list A) :
  concat (map (fun a => [f a]) l) = map f l.
Proof.
  induction l as [|a l IH]; simpl; [reflexivity | now rewrite IH].
Qed.

Lemma placeholders_containments (l : list nat) :
  concat (map placeholders (map containment l)) = l.
Proof.
  rewrite map_map. unfold containment. simpl.
  rewrite (concat_map_singleton (fun i => i)). apply map_id.
Qed.

Lemma tag_fragments_spec (ts : list string) (i : nat) :
  tag_fragments ts i = (map containment (seq i (List.length ts)), i + List.length ts).
Proof.
  revert i. induction ts as [|t ts IH]; intro i; simpl.
  - now rewrite Nat.add_0_r.
  - rewrite IH. f_equal. lia.
Qed.

Lemma push_tags_spec (ts : list string) (b : builder) :
  push_tags ts b =
  match ts with
  | [] => b
  | _ :: _ =>
      {| filters :=
           filters b
             ++ [join_pieces " AND "
                   (map containment (seq (paramIndex b) (List.length ts)))];
         values := values b ++ map VStr ts;
         paramIndex := paramIndex b + List.length ts |}
  end.
Proof.
  unfold push_tags. destruct ts as [|t ts]; [reflexivity|].
  rewrite tag_fragments_spec. reflexivity.
Qed.

(** ** The cursor invariant *)

Lemma cursor_invariant_init : cursor_invariant builder_init.
Proof.
  repeat split; constructor.
Qed.

Lemma cursor_invariant_push_tags (ts : list string) (b : builder) :
  cursor_invariant b -> cursor_invariant (push_tags ts b).
Proof.
  intros (Hc & Hp & Hf). rewrite push_tags_spec.
  destruct ts as [|t ts]; [now repeat split|].
  unfold cursor_invariant. cbn [filters values paramIndex].
  rewrite length_app, length_map, map_app, concat_app, Hp. cbn [map concat].
  rewrite placeholders_join, placeholders_containments, app_nil_r, Hc.
  split; [|split].
  - lia.
  - now rewrite <- seq_app.
  - apply Forall_app. split; [assumption|]. constructor; [|constructor].
    rewrite placeholders_join, placeholders_containments. discriminate.
Qed.

Lemma cursor_invariant_push_scalar (col v : string) (b : builder) :
  cursor_invariant b -> cursor_invariant (push_scalar col v b).
Proof.
  intros (Hc & Hp & Hf). unfold push_scalar.
  destruct (truthy v); [|now repeat split].
  unfold cursor_invariant. cbn [filters values paramIndex].
  rewrite length_app, map_app, concat_app, Hp, Hc.
  cbn [map concat placeholders equality List.length app].
  split; [|split].
  - lia.
  - now rewrite seq_app.
  - apply Forall_app. split; [assumption|]. constructor; [discriminate|constructor].
Qed.

Lemma cursor_invariant_build (p : params) : cursor_invariant (build_filters p).
Proof.
  unfold build_filters. cbv zeta.
  repeat apply cursor_invariant_push_scalar.
  apply cursor_invariant_push_tags, cursor_invariant_init.
Qed.

(** ** The shape of the filters *)

Lemma build_filters_shape (p : params) :
  filters (build_filters p) =
    match parsedTags p with
    | [] => []
    | _ :: _ =>
        [join_pieces " AND "
           (map containment (seq 1 (List.length (parsedTags p))))]
    end
    ++ map (fun icv => equality (fst (snd icv)) (fst icv))
         (combine (seq (1 + List.length (parsedTags p))
                     (List.length (scalar_filters p)))
            (scalar_filters p))
  /\ values (build_filters p) =
       map VStr (parsedTags p)
       ++ map (fun cv => VStr (snd cv)) (scalar_filters p)
  /\ paramIndex (build_filters p) =
       1 + List.length (parsedTags p) + List.length (scalar_filters p).
Proof.
  unfold build_filters, scalar_filters. cbv zeta. rewrite push_tags_spec.
  generalize (parsedTags p). intros ts.
  destruct p as [q tg sb eb lv ty li off so fz se].
  cbn [subject examboard level type].
  unfold push_scalar.
  destruct ts as [|t ts];
    destruct sb as [|? ?]; destruct eb as [|? ?];
    destruct lv as [|? ?]; destruct ty as [|? ?];
    cbn -[join_pieces containment equality ident];
    rewrite <- ?app_assoc; cbn [app];
    rewrite ?app_nil_r;
    (split; [|split]); try reflexivity; lia.
Qed.

Lemma no_filters_no_values (p : params) :
  filters (build_filters p) = [] <-> values (build_filters p) = [].
Proof.
  destruct (build_filters_shape p) as (Hf & Hv & _).
  split; intro H.
  - apply (f_equal (@List.length _)) in H.
    rewrite Hf, length_app, length_map, length_combine, length_seq,
      Nat.min_id in H.
    rewrite Hv.
    destruct (parsedTags p); [|discriminate H].
    destruct (scalar_filters p); [reflexivity | discriminate H].
  - apply (f_equal (@List.length _)) in H.
    rewrite Hv, length_app, !length_map in H.
    rewrite Hf.
    destruct (parsedTags p); [|discriminate H].
    destruct (scalar_filters p); [reflexivity | discriminate H].
Qed.

(** ** Placeholders and values of the parts of a statement *)

Lemma placeholders_whereClause (b : builder) :
  placeholders (whereClause b) = concat (map placeholders (filters b)).
Proof.
  unfold whereClause. destruct (filters b) as [|f fs] eqn:E; [reflexivity|].
  cbn [List.length Nat.ltb Nat.leb placeholders].
  apply placeholders_join.
Qed.

Lemma placeholders_orderBy (sort : string) : placeholders (orderBy sort) = [].
Proof.
  unfold orderBy. destruct (truthy (sortField sort)); reflexivity.
Qed.

Lemma placeholders_limit_offset (i : nat) :
  placeholders (limit_offset i) = [i; i + 1].
Proof. reflexivity. Qed.

Lemma truthy_append (a b : string) :
  truthy (a ++ b)%string = truthy a || truthy b.
Proof. destruct a; reflexivity. Qed.

Lemma falsy_render_no_placeholders (q : sqltext) :
  truthy (render q) = false -> placeholders q = [].
Proof.
  induction q as [|[s|n|s] q IH]; cbn [render render_piece placeholders];
    rewrite ?truthy_append; intro H.
  - reflexivity.
  - apply orb_false_iff in H. now apply IH.
  - discriminate H.
  - apply orb_false_iff in H. now apply IH.
Qed.

Lemma placeholders_fulltext_where (wc cond : sqltext) :
  placeholders (fulltext_where wc cond) = placeholders wc ++ placeholders cond.
Proof.
  unfold fulltext_where. destruct (truthy (render wc)) eqn:E.
  - rewrite !placeholders_app. cbn [placeholders app].
    now rewrite app_nil_r.
  - rewrite (falsy_render_no_placeholders wc E). reflexivity.
Qed.

Lemma searchCondition_spec (p : params) (b : builder) :
  placeholders (fst (searchCondition p b)) =
    seq (paramIndex b) (if fuzzyEnabled p then 2 else 1)
  /\ values (snd (searchCondition p b)) =
       values b
       ++ VStr (query p) :: (if fuzzyEnabled p then [VStr (query p)] else [])
  /\ paramIndex (snd (searchCondition p b)) =
       paramIndex b + (if fuzzyEnabled p then 2 else 1).
Proof.
  unfold searchCondition, fuzzyEnabled.
  destruct (fuzzy p =? "true")%string; cbn [fst snd values paramIndex].
  - rewrite <- app_assoc. repeat split. lia.
  - repeat split. lia.
Qed.

Lemma list_max_seq (n : nat) : list_max (seq 1 n) = n.
Proof.
  induction n as [|n IH]; [reflexivity|].
  rewrite seq_S, list_max_app, IH. cbn [list_max fold_right]. lia.
Qed.

Lemma placeholders_fulltext_body (p : params) (b : builder) (ob : sqltext) :
  placeholders ob = [] ->
  placeholders (fulltext_body p b ob) =
    placeholders (whereClause b)
    ++ seq (paramIndex b) ((if fuzzyEnabled p then 2 else 1) + 2).
Proof.
  intros Hob. unfold fulltext_body.
  destruct (searchCondition_spec p b) as (Hc & _ & Hi).
  destruct (searchCondition p b) as [cond b']. cbn [fst snd] in Hc, Hi.
  unfold fulltext_order.
  rewrite !placeholders_app, placeholders_fulltext_where, Hob, Hc, Hi.
  rewrite placeholders_limit_offset. cbn [placeholders app].
  rewrite <- app_assoc. f_equal.
  destruct (fuzzyEnabled p); cbn [seq Nat.add app]; repeat f_equal; lia.
Qed.

Lemma placeholders_semantic_sql (b : builder) (ob : sqltext) :
  placeholders ob = [] ->
  placeholders (semantic_sql b ob) =
    paramIndex b :: placeholders (whereClause b)
    ++ [paramIndex b + 1; paramIndex b + 1 + 1].
Proof.
  intros Hob. unfold semantic_sql.
  rewrite !placeholders_app, Hob, placeholders_limit_offset.
  reflexivity.
Qed.

Lemma placeholders_filter_only_sql (b : builder) (ob : sqltext) :
  placeholders ob = [] ->
  placeholders (filter_only_sql b ob) =
    placeholders (whereClause b) ++ [paramIndex b; paramIndex b + 1].
Proof.
  intros Hob. unfold filter_only_sql.
  rewrite !placeholders_app, Hob, placeholders_limit_offset.
  reflexivity.
Qed.

Lemma truthy_whereClause (b : builder) :
  truthy (render (whereClause b)) = negb (Nat.eqb (List.length (filters b)) 0).
Proof.
  unfold whereClause. destruct (filters b); reflexivity.
Qed.

Lemma bound_at_app_right (vals rest : list value) (j : nat) :
  bound_at (List.length vals + S j) (vals ++ rest) = nth_error rest j.
Proof.
  rewrite Nat.add_succ_r. cbn [bound_at].
  rewrite nth_error_app2 by lia. f_equal. lia.
Qed.

Lemma score_params : rank_param = 1 /\ fuzzy_score_param = 1.
Proof. split; reflexivity. Qed.

Lemma fulltext_first_value (p : params) (b : builder) (ob : sqltext) :
  hd_error (plan_values (fulltext_plan p b ob))
  = Some (hd (VStr (query p)) (values b)).
Proof.
  destruct (searchCondition_spec p b) as (_ & Hv & _).
  cbn [plan_values fulltext_plan]. rewrite Hv.
  destruct (values b); reflexivity.
Qed.

Lemma searchCondition_cursor (p : params) (b : builder) :
  paramIndex b = 1 + List.length (values b) ->
  paramIndex (snd (searchCondition p b))
  = 1 + List.length (values (snd (searchCondition p b))).
Proof.
  intros Hc. destruct (searchCondition_spec p b) as (_ & Hv & Hi).
  rewrite Hv, Hi, Hc, length_app.
  destruct (fuzzyEnabled p); cbn [List.length]; lia.
Qed.

Lemma limit_offset_last_intro
    (p : params) (pl : plan) (before : sqltext) (vals : list value) (i : nat) :
  plan_sql pl = before ++ limit_offset i ->
  plan_values pl = vals ++ [limit p; offset p] ->
  i = 1 + List.length vals ->
  limit_offset_last p pl.
Proof.
  intros Hsql Hvals ->. unfold limit_offset_last.
  rewrite Hvals, length_app. cbn [List.length].
  replace (List.length vals + 2 - 1) with (List.length vals + 1) by lia.
  split; [|split].
  - exists before. rewrite Hsql. do 2 f_equal. lia.
  - now rewrite (bound_at_app_right vals _ 0).
  - now rewrite (bound_at_app_right vals _ 1).
Qed.

(** ** Splitting the sort value *)

Lemma split_split_first (c : ascii) (s : string) :
  split c s =
  fst (split_first c s)
    :: match snd (split_first c s) with
       | Some rest => split c rest
       | None => []
       end.
Proof.
  induction s as [|a s IH]; [reflexivity|].
  cbn [split split_first]. destruct (Ascii.eqb a c); [reflexivity|].
  rewrite IH. destruct (split_first c s) as [field dir]. reflexivity.
Qed.

Lemma split_first_field_sep (c : ascii) (s t : string) :
  split_first c (fst (split_first c s) ++ String c t)%string
  = (fst (split_first c s), Some t).
Proof.
  induction s as [|a s IH]; cbn [split_first fst String.append].
  - now rewrite Ascii.eqb_refl.
  - destruct (Ascii.eqb a c) eqn:E; cbn [fst String.append split_first].
    + now rewrite Ascii.eqb_refl.
    + destruct (split_first c s) as [field dir].
      cbn [fst String.append split_first] in *. now rewrite E, IH.
Qed.

Lemma split_first_field (c : ascii) (s : string) :
  split_first c (fst (split_first c s)) = (fst (split_first c s), None).
Proof.
  induction s as [|a s IH]; cbn [split_first fst]; [reflexivity|].
  destruct (Ascii.eqb a c) eqn:E; cbn [fst split_first]; [reflexivity|].
  destruct (split_first c s) as [field dir].
  cbn [fst split_first] in *. now rewrite E, IH.
Qed.

Lemma sortField_split_first (s : string) :
  sortField s = fst (split_first ":" s).
Proof.
  unfold sortField. now rewrite split_split_first.
Qed.

Lemma sortDir_split_first (s : string) :
  sortDir s =
  option_map (fun rest => fst (split_first ":" rest)) (snd (split_first ":" s)).
Proof.
  unfold sortDir. rewrite split_split_first. cbn [nth_error].
  destruct (snd (split_first ":" s)) as [rest|]; [|reflexivity].
  now rewrite split_split_first.
Qed.

Lemma split_first_two_segments (s : string) :
  split_first ":" (first_two_segments s) = (sortField s, sortDir s).
Proof.
  rewrite sortField_split_first, sortDir_split_first. unfold first_two_segments.
  destruct (split_first ":" s) as [field [rest|]] eqn:E; cbn [fst snd option_map].
  - change field with (fst (field, Some rest)). rewrite <- E.
    apply split_first_field_sep.
  - change field with (fst (field, @None string)). rewrite <- E.
    apply split_first_field.
Qed.

Lemma validSortDir_cases (s : string) :
  validSortDir s = "asc" \/ validSortDir s = "desc".
Proof.
  unfold validSortDir. destruct (sortDir s) as [d|]; [|now right].
  destruct (d =? "asc")%string eqn:Ea.
  - apply String.eqb_eq in Ea. subst d. now left.
  - cbn [orb]. destruct (d =? "desc")%string eqn:Ed; [|now right].
    apply String.eqb_eq in Ed. subst d. now right.
Qed.

(** ** Reading the placeholders back from the text *)

Lemma text_placeholders_no_dollar (s t : string) :
  no_dollar s = true ->
  text_placeholders (s ++ t) = text_placeholders t.
Proof.
  induction s as [|c s IH]; cbn [no_dollar String.append text_placeholders];
    [reflexivity|].
  intros H. apply andb_true_iff in H. destruct H as [Hc Hs].
  apply negb_true_iff in Hc. rewrite Hc. now apply IH.
Qed.

Lemma digit_not_dollar (c : ascii) : is_digit c = true -> is_dollar c = false.
Proof.
  intros H. unfold is_dollar. destruct (Ascii.eqb c "$") eqn:E; [|reflexivity].
  apply Ascii.eqb_eq in E. subst c. discriminate H.
Qed.

Lemma all_digits_no_dollar (s : string) : all_digits s = true -> no_dollar s = true.
Proof.
  induction s as [|c s IH]; cbn [all_digits no_dollar]; [reflexivity|].
  intros H. apply andb_true_iff in H. destruct H as [Hc Hs].
  rewrite (digit_not_dollar c Hc). now rewrite IH.
Qed.

Lemma digits_prefix_app (ds t : string) :
  all_digits ds = true -> starts_with_digit t = false ->
  digits_prefix (ds ++ t) = ds.
Proof.
  intros Hd Ht. induction ds as [|c ds IH];
    cbn [all_digits String.append digits_prefix] in *.
  - destruct t as [|c t]; [reflexivity|]. cbn in Ht. cbn [digits_prefix].
    now rewrite Ht.
  - apply andb_true_iff in Hd. destruct Hd as [Hc Hds].
    rewrite Hc. now rewrite IH.
Qed.

Lemma all_digits_string_of_uint (d : Decimal.uint) :
  all_digits (NilEmpty.string_of_uint d) = true.
Proof.
  induction d; cbn [NilEmpty.string_of_uint all_digits]; try reflexivity;
    exact IHd.
Qed.

Lemma read_number_show_nat (n : nat) : read_number (show_nat n) = Some n.
Proof.
  unfold read_number, show_nat.
  destruct (NilEmpty.string_of_uint (Nat.to_uint n)) eqn:E.
  - exfalso. pose proof (NilEmpty.usu (Nat.to_uint n)) as H.
    rewrite E in H. cbn in H. injection H as H.
    pose proof (DecimalNat.Unsigned.of_to n) as Hn. rewrite <- H in Hn.
    cbn in Hn. subst n. discriminate H.
  - rewrite <- E, NilEmpty.usu. cbn [option_map].
    now rewrite DecimalNat.Unsigned.of_to.
Qed.

Lemma text_placeholders_ph (n : nat) (t : string) :
  starts_with_digit t = false ->
  text_placeholders ("$" ++ show_nat n ++ t) = n :: text_placeholders t.
Proof.
  intros Ht.
  change ("$" ++ show_nat n ++ t)%string with (String "$" (show_nat n ++ t)).
  cbn [text_placeholders].
  change (is_dollar "$") with true. cbv iota.
  pose proof (all_digits_string_of_uint (Nat.to_uint n)) as Hd.
  fold (show_nat n) in Hd.
  rewrite (digits_prefix_app _ _ Hd Ht), read_number_show_nat.
  now rewrite (text_placeholders_no_dollar _ _ (all_digits_no_dollar _ Hd)).
Qed.

Lemma append_assoc (a b c : string) :
  ((a ++ b) ++ c = a ++ (b ++ c))%string.
Proof.
  induction a as [|x a IH]; cbn [String.append]; [reflexivity | now rewrite IH].
Qed.

Lemma append_empty_r (s : string) : (s ++ EmptyString)%string = s.
Proof.
  induction s as [|c s IH]; cbn [String.append]; [reflexivity | now f_equal].
Qed.

Lemma text_placeholders_render (q : sqltext) (t : string) :
  plain q t = true ->
  text_placeholders (render q ++ t) = placeholders q ++ text_placeholders t.
Proof.
  induction q as [|[s|n|s] q IH]; cbn [plain render render_piece placeholders];
    intros H.
  - reflexivity.
  - apply andb_true_iff in H. destruct H as [Hs Hq].
    rewrite append_assoc, (text_placeholders_no_dollar _ _ Hs). now apply IH.
  - apply andb_true_iff in H. destruct H as [Hd Hq].
    apply negb_true_iff in Hd.
    rewrite !append_assoc, (text_placeholders_ph _ _ Hd), (IH Hq).
    reflexivity.
  - apply andb_true_iff in H. destruct H as [Hs Hq].
    rewrite append_assoc, (text_placeholders_no_dollar _ _ Hs). now apply IH.
Qed.

Lemma render_app (a b : sqltext) :
  render (a ++ b) = (render a ++ render b)%string.
Proof.
  induction a as [|x a IH]; cbn [app render]; [reflexivity|].
  now rewrite IH, append_assoc.
Qed.

Lemma plain_app (a b : sqltext) (t : string) :
  plain (a ++ b) t = plain a (render b ++ t) && plain b t.
Proof.
  induction a as [|[s|n|s] a IH]; cbn [app plain]; rewrite ?IH.
  - reflexivity.
  - now rewrite andb_assoc.
  - now rewrite render_app, append_assoc, andb_assoc.
  - now rewrite andb_assoc.
Qed.

Lemma closed_containment (i : nat) : closed (containment i).
Proof. intros t _. reflexivity. Qed.

Lemma closed_equality (col : string) (i : nat) :
  no_dollar (ident col ++ " = ") = true -> closed (equality col i).
Proof.
  intros Hc t Ht. unfold equality. cbn [plain render String.append].
  now rewrite Hc, Ht.
Qed.

Lemma closed_join (frags : list sqltext) :
  Forall closed frags -> closed (join_pieces " AND " frags).
Proof.
  induction frags as [|f [|g rest] IH]; intros H t Ht.
  - reflexivity.
  - apply (Forall_inv H), Ht.
  - change (join_pieces " AND " (f :: g :: rest))
      with (f ++ Lit " AND " :: join_pieces " AND " (g :: rest)).
    rewrite plain_app. apply andb_true_iff. split.
    + apply (Forall_inv H). reflexivity.
    + change (plain (Lit " AND " :: ?q) t) with (plain q t).
      cbn [plain no_dollar]. apply (IH (Forall_inv_tail H)), Ht.
Qed.

Lemma closed_push_tags (ts : list string) (b : builder) :
  Forall closed (filters b) -> Forall closed (filters (push_tags ts b)).
Proof.
  intros H. rewrite push_tags_spec. destruct ts as [|t ts]; [exact H|].
  cbn [filters]. apply Forall_app. split; [exact H|].
  constructor; [|constructor].
  apply closed_join, Forall_forall. intros f Hf.
  apply in_map_iff in Hf. destruct Hf as (i & <- & _).
  apply closed_containment.
Qed.

Lemma closed_push_scalar (col v : string) (b : builder) :
  no_dollar (ident col ++ " = ") = true ->
  Forall closed (filters b) -> Forall closed (filters (push_scalar col v b)).
Proof.
  intros Hc H. unfold push_scalar. destruct (truthy v); [|exact H].
  cbn [filters]. apply Forall_app. split; [exact H|].
  constructor; [|constructor]. now apply closed_equality.
Qed.

Lemma closed_filters (p : params) : Forall closed (filters (build_filters p)).
Proof.
  unfold build_filters. cbv zeta.
  repeat (apply closed_push_scalar; [reflexivity|]).
  apply closed_push_tags. constructor.
Qed.

Lemma closed_whereClause (p : params) : closed (whereClause (build_filters p)).
Proof.
  intros t Ht. unfold whereClause.
  destruct (0 <? List.length (filters (build_filters p))); [|reflexivity].
  cbn [plain no_dollar]. apply (closed_join _ (closed_filters p)), Ht.
Qed.

Lemma plain_orderBy (s t : string) :
  no_dollar (sortField s) = true -> plain (orderBy s) t = true.
Proof.
  intros H. unfold orderBy. destruct (truthy (sortField s)); [|reflexivity].
  cbn [plain]. rewrite H.
  destruct (validSortDir_cases s) as [-> | ->]; reflexivity.
Qed.

Lemma plain_limit_offset (i : nat) (t : string) : plain (limit_offset i) t = true.
Proof. reflexivity. Qed.

Lemma plain_searchCondition (p : params) (b : builder) (t : string) :
  plain (fst (searchCondition p b)) t = true
  /\ starts_with_digit (render (fst (searchCondition p b)) ++ t) = false.
Proof.
  unfold searchCondition. destruct (fuzzy p =? "true")%string; split; reflexivity.
Qed.

(** When the sort field has no [$], the placeholders read in the text of a
    compiled statement are those of its parts. *)
Lemma statement_text_placeholders
    (embed : embedding_service) (p : params) (s : strategy) (pl : plan) :
  no_dollar (sortField (sort p)) = true ->
  search embed p = Executed s pl ->
  text_placeholders (render (plan_sql pl)) = placeholders (plan_sql pl).
Proof.
  intros Hsort Hrun.
  assert (Hplain : plain (plan_sql pl) EmptyString = true).
  { pose proof (closed_whereClause p) as Hwc.
    pose proof (fun t => plain_orderBy (sort p) t Hsort) as Hob.
    unfold search in Hrun.
    destruct (semanticEnabled p && truthy (query p)).
    - destruct (embed (query p)) as [embedding|]; [|discriminate Hrun].
      injection Hrun as _ <-. cbn [plan_sql semantic_plan]. unfold semantic_sql.
      rewrite !plain_app, Hob, plain_limit_offset, Hwc by reflexivity.
      reflexivity.
    - destruct (truthy (query p)).
      + injection Hrun as _ <-. cbn [plan_sql fulltext_plan].
        unfold fulltext_body, fulltext_order, fulltext_where.
        destruct (plain_searchCondition p (build_filters p)
                    (render
                       ([Lit (nl ++ "        ORDER BY rank DESC, fuzzy_score DESC, ")]
                        ++ orderBy (sort p)
                        ++ limit_offset
                             (paramIndex (snd (searchCondition p (build_filters p)))))
                     ++ EmptyString)) as [Hc _].
        destruct (searchCondition p (build_filters p)) as [cond b'].
        cbn [fst snd] in Hc.
        rewrite !plain_app, !render_app.
        rewrite Hob, plain_limit_offset.
        destruct (truthy (render (whereClause (build_filters p)))).
        * rewrite !plain_app, Hwc by reflexivity.
          rewrite !render_app in Hc. rewrite !append_assoc in *.
          rewrite Hc. reflexivity.
        * rewrite !render_app in Hc. rewrite !append_assoc in *.
          rewrite Hc. reflexivity.
      + injection Hrun as _ <-. cbn [plan_sql filter_only_plan].
        unfold filter_only_sql.
        rewrite !plain_app, Hob, plain_limit_offset, Hwc by reflexivity.
        reflexivity. }
  pose proof (text_placeholders_render _ _ Hplain) as H.
  cbn [text_placeholders] in H.
  now rewrite app_nil_r, append_empty_r in H.
Qed.

(** ** The scenarios of the specification *)

Example scenario_A_statement :
  compiled (search no_embedding scenario_A)
  = Some ((select_columns ++ nl
           ++ "        FROM " ++ ident "resources" ++ nl
           ++ "        WHERE " ++ ident "subject" ++ " = $1" ++ nl
           ++ "        ORDER BY " ++ ident "averagerating" ++ " desc" ++ nl
           ++ "        LIMIT $2 OFFSET $3;" ++ nl ++ "      ")%string,
          [VStr "Maths"; VStr "10"; VStr "0"]).
Proof. reflexivity. Qed.

Example scenario_C_statement :
  compiled (search embed_any semantic_algebra)
  = Some ((select_columns ++ "," ++ nl
           ++ "               1 - (embedding <-> $1) AS semantic_score" ++ nl
           ++ "        FROM resources" ++ nl
           ++ "        " ++ nl
           ++ "        ORDER BY semantic_score DESC, "
           ++ ident "averagerating" ++ " desc" ++ nl
           ++ "        LIMIT $2 OFFSET $3;" ++ nl ++ "      ")%string,
          [VStr "[0.1,0.2]"; VNum 20; VNum 0]).
Proof. reflexivity. Qed.

(** No request is refused for its sort field: unless the embedding call
    fails, a statement is executed, and a non-empty sort field is part of
    its text as it came in the request. *)
Lemma sort_field_is_never_checked (embed : embedding_service) (p : params) :
  truthy (sortField (sort p)) = true ->
  match search embed p with
  | Executed _ pl => In (Raw (sortField (sort p))) (plan_sql pl)
  | Failed _ => embed (query p) = None
  end.
Proof.
  intros Hf.
  assert (Hin : In (Raw (sortField (sort p))) (orderBy (sort p))).
  { unfold orderBy. rewrite Hf. right. now left. }
  unfold search.
  destruct (semanticEnabled p && truthy (query p)).
  - destruct (embed (query p)) as [embedding|]; [|reflexivity].
    cbn [plan_sql semantic_plan]. unfold semantic_sql.
    rewrite !in_app_iff. tauto.
  - destruct (truthy (query p)).
    + cbn [plan_sql fulltext_plan]. unfold fulltext_body, fulltext_order.
      destruct (searchCondition p (build_filters p)) as [cond b'].
      rewrite !in_app_iff. tauto.
    + cbn [plan_sql filter_only_plan]. unfold filter_only_sql.
      rewrite !in_app_iff. tauto.
Qed.

(** * The claims of the specification *)

(** ** C1: numbering of the placeholders *)

(** C1, as stated, fails.  In the full-text branch the statement compiled
    for scenario B ([query = "algebra"], no filter, fuzzy on) names [$1]
    three times, so its placeholders are neither free of repeats nor the
    sequence 1..4 of its four bound values.  And a sort field is copied
    into the text as it is: for the sort value [x", $9, "y:asc] the
    filter-only statement orders by ["x", $9, "y" asc], so its text names
    [$9] although only two values are bound. *)
Lemma fulltext_placeholders_repeat :
  (exists pl : plan,
     search no_embedding scenario_B = Executed FullText pl
     /\ placeholders (plan_sql pl) = [1; 1; 1; 2; 3; 4]
     /\ text_placeholders (render (plan_sql pl)) = [1; 1; 1; 2; 3; 4]
     /\ plan_values pl = [VStr "algebra"; VStr "algebra"; VNum 20; VNum 0]
     /\ ~ NoDup (placeholders (plan_sql pl))
     /\ ~ numbered_once pl
     /\ ~ numbered_in_order pl)
  /\ (exists pl : plan,
        search no_embedding sort_with_placeholder = Executed FilterOnly pl
        /\ render (orderBy (sort sort_with_placeholder))
           = (ident "x" ++ ", $9, " ++ ident "y" ++ " asc")%string
        /\ text_placeholders (render (plan_sql pl)) = [9; 1; 2]
        /\ plan_values pl = [VNum 20; VNum 0]
        /\ list_max (text_placeholders (render (plan_sql pl)))
           <> List.length (plan_values pl)).
Proof.
  split.
  - eexists. split; [reflexivity|].
    split; [reflexivity|]. split; [vm_compute; reflexivity|].
    split; [reflexivity|].
    unfold numbered_once, numbered_in_order.
    change (placeholders _) with [1; 1; 1; 2; 3; 4].
    change (seq 1 _) with [1; 2; 3; 4].
    repeat split.
    + intro H. inversion H as [|x l Hin _]. apply Hin. now left.
    + intro H. apply Permutation_length in H. discriminate H.
    + discriminate.
  - eexists. split; [reflexivity|]. split; [reflexivity|].
    assert (Ht : text_placeholders
                   (render (plan_sql
                      (filter_only_plan sort_with_placeholder
                         (build_filters sort_with_placeholder)
                         (orderBy (sort sort_with_placeholder)))))
                 = [9; 1; 2]) by (vm_compute; reflexivity).
    split; [exact Ht|]. split; [reflexivity|].
    rewrite Ht. discriminate.
Qed.

(** C1, amended.  In every branch the bound values are the filter values
    followed by the branch's own values, with [limit] and [offset] last (in
    the semantic branch straight after the query vector), named by the
    closing LIMIT and OFFSET placeholders.  The placeholders the templates
    write from the parameter cursor are numbered 1..n without gap or
    repeat: in the filter-only statement and in the full-text statement
    after its projection they occur in that order; in the semantic
    statement the query vector's placeholder [$(k+1)] stands in the
    projection, before the [k] filter placeholders.  The highest
    placeholder the templates write is the number of bound values.  For a
    request whose sort field holds no [$], the placeholders the templates
    write are all the [$n] of the text handed to the store, so the highest
    [$n] of that text is the number of bound values. *)
Theorem placeholders_follow_values (embed : embedding_service) (p : params) :
  let b := build_filters p in
  let k := List.length (values b) in
  match search embed p with
  | Executed Semantic pl =>
      exists embedding,
        embed (query p) = Some embedding
        /\ plan_values pl =
             values b ++ [VStr (embeddingLiteral embedding); limit p; offset p]
        /\ placeholders (plan_sql pl) = (k + 1) :: seq 1 k ++ [k + 2; k + 3]
        /\ numbered_once pl
        /\ bound_at (k + 1) (plan_values pl)
           = Some (VStr (embeddingLiteral embedding))
        /\ limit_offset_last p pl
        /\ list_max (placeholders (plan_sql pl)) = List.length (plan_values pl)
        /\ (no_dollar (sortField (sort p)) = true ->
            text_placeholders (render (plan_sql pl)) = placeholders (plan_sql pl)
            /\ list_max (text_placeholders (render (plan_sql pl)))
               = List.length (plan_values pl))
  | Executed FullText pl =>
      plan_values pl =
        values b
        ++ VStr (query p) :: (if fuzzyEnabled p then [VStr (query p)] else [])
        ++ [limit p; offset p]
      /\ plan_sql pl = fulltext_projection ++ fulltext_body p b (orderBy (sort p))
      /\ placeholders (fulltext_body p b (orderBy (sort p))) =
           seq 1 (List.length (plan_values pl))
      /\ placeholders (plan_sql pl)
         = [1; 1] ++ seq 1 (List.length (plan_values pl))
      /\ limit_offset_last p pl
      /\ list_max (placeholders (plan_sql pl)) = List.length (plan_values pl)
      /\ (no_dollar (sortField (sort p)) = true ->
          text_placeholders (render (plan_sql pl)) = placeholders (plan_sql pl)
          /\ list_max (text_placeholders (render (plan_sql pl)))
             = List.length (plan_values pl))
  | Executed FilterOnly pl =>
      plan_values pl = values b ++ [limit p; offset p]
      /\ numbered_in_order pl
      /\ limit_offset_last p pl
      /\ list_max (placeholders (plan_sql pl)) = List.length (plan_values pl)
      /\ (no_dollar (sortField (sort p)) = true ->
          text_placeholders (render (plan_sql pl)) = placeholders (plan_sql pl)
          /\ list_max (text_placeholders (render (plan_sql pl)))
             = List.length (plan_values pl))
  | Failed _ =>
      semanticEnabled p = true /\ truthy (query p) = true
      /\ embed (query p) = None
  end.
Proof.
  intros b k.
  destruct (cursor_invariant_build p) as (Hc & Hp & _).
  fold b in Hc, Hp. fold k in Hc, Hp.
  pose proof (placeholders_orderBy (sort p)) as Hob.
  pose proof (statement_text_placeholders embed p) as Htext.
  unfold search in *. fold b in Htext |- *.
  destruct (semanticEnabled p && truthy (query p)) eqn:Hsem.
  - apply andb_true_iff in Hsem. destruct Hsem as [Hs Hq].
    destruct (embed (query p)) as [embedding|] eqn:He; [|now repeat split].
    exists embedding. split; [reflexivity|]. split; [reflexivity|].
    assert (Hph : placeholders (plan_sql (semantic_plan p b (orderBy (sort p)) embedding))
                  = (k + 1) :: seq 1 k ++ [k + 2; k + 3]).
    { cbn [plan_sql semantic_plan].
      rewrite (placeholders_semantic_sql _ _ Hob), placeholders_whereClause, Hp, Hc.
      f_equal; [lia|]. f_equal. f_equal; [lia|]. f_equal. lia. }
    assert (Hlen : List.length (plan_values (semantic_plan p b (orderBy (sort p)) embedding))
                   = k + 3).
    { cbn [plan_values semantic_plan]. rewrite length_app. reflexivity. }
    assert (Hmax : list_max ((k + 1) :: seq 1 k ++ [k + 2; k + 3]) = k + 3).
    { cbn [list_max fold_right].
      change (fold_right Nat.max 0 (seq 1 k ++ [k + 2; k + 3]))
        with (list_max (seq 1 k ++ [k + 2; k + 3])).
      rewrite list_max_app, list_max_seq. cbn [list_max fold_right]. lia. }
    split; [exact Hph|]. unfold numbered_once. rewrite Hph, Hlen.
    split; [|split; [|split; [|split]]].
    + rewrite seq_app. cbn [seq Nat.add].
      replace (k + 1) with (S k) by lia. replace (k + 2) with (S (S k)) by lia.
      replace (k + 3) with (S (S (S k))) by lia.
      apply Permutation_middle.
    + cbn [plan_values semantic_plan]. unfold k.
      now rewrite (bound_at_app_right (values b) _ 0).
    + apply (limit_offset_last_intro p _
               ([Lit (select_columns ++ "," ++ nl
                        ++ "               1 - (embedding <-> ");
                 Ph (paramIndex b);
                 Lit (") AS semantic_score" ++ nl ++ "        FROM resources"
                        ++ nl ++ "        ")]
                ++ whereClause b
                ++ [Lit (nl ++ "        ORDER BY semantic_score DESC, ")]
                ++ orderBy (sort p))
               (values b ++ [VStr (embeddingLiteral embedding)])
               (paramIndex b + 1)).
      * cbn [plan_sql semantic_plan]. unfold semantic_sql.
        now rewrite <- !app_assoc.
      * cbn [plan_values semantic_plan]. now rewrite <- app_assoc.
      * rewrite length_app, Hc. cbn [List.length]. fold k. lia.
    + exact Hmax.
    + intros Hsort. rewrite (Htext _ _ Hsort eq_refl), Hph.
      split; [reflexivity | exact Hmax].
  - destruct (truthy (query p)) eqn:Hq.
    + destruct (searchCondition_spec p b) as (_ & Hv & _).
      assert (Hlen : List.length (plan_values (fulltext_plan p b (orderBy (sort p))))
                     = k + ((if fuzzyEnabled p then 2 else 1) + 2)).
      { cbn [plan_values fulltext_plan]. rewrite Hv, !length_app. fold k.
        destruct (fuzzyEnabled p); cbn [List.length app]; lia. }
      assert (Hbody : placeholders (fulltext_body p b (orderBy (sort p)))
                      = seq 1 (k + ((if fuzzyEnabled p then 2 else 1) + 2))).
      { rewrite (placeholders_fulltext_body _ _ _ Hob), placeholders_whereClause,
          Hp, Hc.
        symmetry. apply seq_app. }
      assert (Hall : placeholders
                       (plan_sql (fulltext_plan p b (orderBy (sort p))))
                     = [1; 1] ++ seq 1 (k + ((if fuzzyEnabled p then 2 else 1) + 2))).
      { cbn [plan_sql fulltext_plan]. now rewrite placeholders_app, Hbody. }
      assert (Hmax : list_max
                       ([1; 1] ++ seq 1 (k + ((if fuzzyEnabled p then 2 else 1) + 2)))
                     = k + ((if fuzzyEnabled p then 2 else 1) + 2)).
      { rewrite list_max_app, list_max_seq. cbn [list_max fold_right].
        destruct (fuzzyEnabled p); lia. }
      split; [|split; [reflexivity|split; [|split; [|split; [|split]]]]].
      * cbn [plan_values fulltext_plan]. rewrite Hv, <- app_assoc. reflexivity.
      * now rewrite Hlen.
      * now rewrite Hlen.
      * pose proof (searchCondition_cursor p b Hc) as Hc'.
        apply (limit_offset_last_intro p _
                 (fulltext_projection
                  ++ fulltext_where (whereClause b) (fst (searchCondition p b))
                  ++ fulltext_order (orderBy (sort p)))
                 (values (snd (searchCondition p b)))
                 (paramIndex (snd (searchCondition p b)))).
        -- cbn [plan_sql fulltext_plan]. unfold fulltext_body.
           destruct (searchCondition p b) as [cond b']. cbn [fst snd].
           now rewrite <- !app_assoc.
        -- reflexivity.
        -- exact Hc'.
      * now rewrite Hall, Hlen.
      * intros Hsort. rewrite (Htext _ _ Hsort eq_refl).
        split; [reflexivity | now rewrite Hall, Hlen].
    + assert (Hph : placeholders (plan_sql (filter_only_plan p b (orderBy (sort p))))
                    = seq 1 (k + 2)).
      { cbn [plan_sql filter_only_plan].
        rewrite (placeholders_filter_only_sql _ _ Hob), placeholders_whereClause,
          Hp, Hc.
        rewrite seq_app. cbn [seq Nat.add]. repeat f_equal; lia. }
      assert (Hlen : List.length (plan_values (filter_only_plan p b (orderBy (sort p))))
                     = k + 2).
      { cbn [plan_values filter_only_plan]. rewrite length_app. reflexivity. }
      split; [reflexivity|]. unfold numbered_in_order. rewrite Hph, Hlen.
      split; [reflexivity|]. split; [|split; [apply list_max_seq|]].
      * apply (limit_offset_last_intro p _
                 ([Lit (select_columns ++ nl ++ "        FROM "
                          ++ ident "resources" ++ nl ++ "        ")]
                  ++ whereClause b
                  ++ [Lit (nl ++ "        ORDER BY ")]
                  ++ orderBy (sort p))
                 (values b) (paramIndex b)).
        -- cbn [plan_sql filter_only_plan]. unfold filter_only_sql.
           now rewrite <- !app_assoc.
        -- reflexivity.
        -- exact Hc.
      * intros Hsort. rewrite (Htext _ _ Hsort eq_refl), Hph.
        split; [reflexivity | apply list_max_seq].
Qed.

(** ** C2: the parameter cursor *)

(** C2.  Whatever the tags and the scalar filters, after the filters are
    built the cursor is one more than the number of bound values; there is
    one bound value per tag and per non-empty scalar filter, and one
    fragment for all the tags together and per non-empty scalar filter;
    every fragment has a placeholder, every placeholder has a bound value,
    and the placeholders of the fragments are the slots 1..n of the values,
    in order. *)
Theorem cursor_is_one_past_the_values (p : params) :
  let b := build_filters p in
  paramIndex b = 1 + List.length (values b)
  /\ List.length (values b) =
       List.length (parsedTags p) + List.length (scalar_filters p)
  /\ List.length (filters b) =
       Nat.min 1 (List.length (parsedTags p)) + List.length (scalar_filters p)
  /\ concat (map placeholders (filters b)) = seq 1 (List.length (values b))
  /\ Forall (fun f =>
               placeholders f <> []
               /\ Forall (fun n => bound_at n (values b) <> None)
                    (placeholders f))
       (filters b).
Proof.
  intros b.
  destruct (cursor_invariant_build p) as (Hc & Hp & Hf).
  destruct (build_filters_shape p) as (Hfs & Hvs & _).
  fold b in Hc, Hp, Hf, Hfs, Hvs.
  split; [exact Hc|]. split; [|split; [|split; [exact Hp|]]].
  - rewrite Hvs, length_app, !length_map. reflexivity.
  - rewrite Hfs, length_app, length_map, length_combine, length_seq, Nat.min_id.
    destruct (parsedTags p); reflexivity.
  - apply Forall_forall. intros f Hin. split.
    + revert f Hin. apply Forall_forall. exact Hf.
    + apply Forall_forall. intros n Hn.
      assert (Hseq : In n (seq 1 (List.length (values b)))).
      { rewrite <- Hp. apply in_concat. exists (placeholders f).
        split; [now apply in_map | exact Hn]. }
      apply in_seq in Hseq. destruct n as [|i]; [lia|].
      cbn [bound_at]. apply nth_error_Some. lia.
Qed.

(** ** C3: selection of the strategy *)

(** C3.  The handler runs exactly one branch, fixed by the semantic flag and
    by whether the query is empty: the semantic branch when the flag is set
    and the query is not empty, the full-text branch when the flag is not
    set and the query is not empty, the filter-only branch when the query is
    empty, whatever the flag.  The [fuzzy] parameter has no part in it. *)
Theorem one_strategy_per_request (embed : embedding_service) (p : params) :
  strategy_of (search embed p) =
    (if truthy (query p)
     then if semanticEnabled p then Semantic else FullText
     else FilterOnly)
  /\ search embed p =
       (let b := build_filters p in
        let ob := orderBy (sort p) in
        match strategy_of (search embed p) with
        | Semantic =>
            match embed (query p) with
            | Some embedding =>
                Executed Semantic (semantic_plan p b ob embedding)
            | None => Failed Semantic
            end
        | FullText => Executed FullText (fulltext_plan p b ob)
        | FilterOnly => Executed FilterOnly (filter_only_plan p b ob)
        end)
  /\ (forall f : string,
        strategy_of (search embed (with_fuzzy f p))
        = strategy_of (search embed p)).
Proof.
  assert (H : forall q : params,
             strategy_of (search embed q) =
               (if truthy (query q)
                then if semanticEnabled q then Semantic else FullText
                else FilterOnly)).
  { intros q. unfold search.
    destruct (semanticEnabled q), (truthy (query q)); cbn [andb];
      try reflexivity.
    destruct (embed (query q)); reflexivity. }
  split; [apply H|]. split.
  - unfold search.
    destruct (semanticEnabled p), (truthy (query p)); cbn [andb];
      try reflexivity.
    destruct (embed (query p)); reflexivity.
  - intros f. rewrite !H. reflexivity.
Qed.

(** ** C4: the sort field in the statement *)

(** C4 at a failing input.  The field "price" is not one of the sortable
    attributes, yet the request is not rejected: the handler compiles and
    executes the filter-only statement, with the field copied into its
    ORDER BY clause between double quotes. *)
Theorem unlisted_sort_field_is_interpolated :
  ~ In (sortField (sort sort_by_price)) sort_allow_list
  /\ exists pl : plan,
       search no_embedding sort_by_price = Executed FilterOnly pl
       /\ In (Raw "price") (plan_sql pl)
       /\ plan_values pl = [VNum 20; VNum 0]
       /\ render (plan_sql pl) =
            (select_columns ++ nl
             ++ "        FROM " ++ ident "resources" ++ nl
             ++ "        " ++ nl
             ++ "        ORDER BY " ++ ident "price" ++ " asc" ++ nl
             ++ "        LIMIT $1 OFFSET $2;" ++ nl ++ "      ")%string.
Proof.
  split.
  - cbn. intros [H|[H|[H|[H|[H|[H|[]]]]]]]; discriminate H.
  - eexists. split; [reflexivity|]. split; [|split; reflexivity].
    cbn. tauto.
Qed.

(** ** C5: the full-text condition with fuzzy match *)

(** C5.  With a non-empty query, the semantic flag off and fuzzy on, the
    WHERE clause ends in the full-text condition OR'd with the trigram
    condition, after the filters and AND when there are filters; the two
    conditions name the two distinct slots [$(k+1)] and [$(k+2)] after the
    [k] filter values, and the query text is bound at both. *)
Theorem fuzzy_condition_binds_query_twice
    (embed : embedding_service) (p : params) :
  semanticEnabled p = false ->
  truthy (query p) = true ->
  fuzzyEnabled p = true ->
  let b := build_filters p in
  let k := List.length (values b) in
  let cond :=
    [Lit "(";
     Lit (ident "search_tsv" ++ " @@ plainto_tsquery('english', ");
     Ph (k + 1); Lit ")";
     Lit (" OR " ++ ident "title" ++ " % "); Ph (k + 2); Lit ")"] in
  exists pl : plan,
    search embed p = Executed FullText pl
    /\ plan_sql pl =
         fulltext_projection
         ++ [Lit ("        FROM " ++ ident "resources" ++ nl ++ "        ")]
         ++ match filters b with
            | [] => [Lit "WHERE "]
            | _ :: _ => whereClause b ++ [Lit " AND "]
            end
         ++ [Lit " "] ++ cond
         ++ fulltext_order (orderBy (sort p))
         ++ limit_offset (k + 3)
    /\ bound_at (k + 1) (plan_values pl) = Some (VStr (query p))
    /\ bound_at (k + 2) (plan_values pl) = Some (VStr (query p))
    /\ k + 1 <> k + 2
    /\ List.length (plan_values pl) = k + 4.
Proof.
  intros Hs Hq Hf b k cond.
  destruct (cursor_invariant_build p) as (Hc & _). fold b in Hc. fold k in Hc.
  exists (fulltext_plan p b (orderBy (sort p))). split.
  - unfold search. rewrite Hs, Hq. reflexivity.
  - unfold fulltext_plan, fulltext_body, searchCondition.
    unfold fuzzyEnabled in Hf. rewrite Hf.
    cbn [plan_sql plan_values snd values paramIndex].
    rewrite Hc. replace (1 + k) with (k + 1) by lia.
    replace (S (k + 1)) with (k + 2) by lia.
    replace (S (k + 2)) with (k + 3) by lia.
    split; [|split; [|split; [|split]]].
    + unfold fulltext_where. rewrite truthy_whereClause.
      destruct (filters b); cbn [List.length Nat.eqb negb app];
        rewrite <- ?app_assoc; reflexivity.
    + rewrite <- !app_assoc. unfold k.
      rewrite (bound_at_app_right (values b) _ 0). reflexivity.
    + rewrite <- !app_assoc. unfold k.
      rewrite (bound_at_app_right (values b) _ 1). reflexivity.
    + lia.
    + rewrite !length_app. cbn [List.length]. fold k. lia.
Qed.

Lemma fuzzy_condition_binds_query_twice_witness :
  semanticEnabled scenario_B = false
  /\ truthy (query scenario_B) = true
  /\ fuzzyEnabled scenario_B = true
  /\ exists pl : plan,
       search no_embedding scenario_B = Executed FullText pl
       /\ bound_at 1 (plan_values pl) = Some (VStr "algebra")
       /\ bound_at 2 (plan_values pl) = Some (VStr "algebra").
Proof.
  split; [reflexivity|]. split; [reflexivity|]. split; [reflexivity|].
  destruct (fuzzy_condition_binds_query_twice no_embedding scenario_B
              eq_refl eq_refl eq_refl) as (pl & Hrun & _ & H1 & H2 & _).
  exists pl. split; [exact Hrun|]. split; [exact H1 | exact H2].
Defined.

(** ** C6: the fuzzy score with fuzzy off *)

(** C6, as stated, fails: with fuzzy off the fuzzy score is not 0.  For
    [{query:"algebra", fuzzy:"false"}] the column is still
    [similarity("title", $1)] with "algebra" bound at [$1], so its value on
    a row is whatever the store's similarity gives for that row and
    "algebra". *)
Lemma fuzzy_score_is_not_zeroed :
  fuzzyEnabled algebra_without_fuzzy = false
  /\ exists pl : plan,
       search no_embedding algebra_without_fuzzy = Executed FullText pl
       /\ (forall (row : Type) (similarity : row -> value -> Q) (r : row),
             fuzzy_score row similarity pl r
             = Some (similarity r (VStr "algebra")))
       /\ ~ (forall (row : Type) (similarity : row -> value -> Q) (r : row),
               exists q : Q,
                 fuzzy_score row similarity pl r = Some q /\ (q == 0)%Q).
Proof.
  split; [reflexivity|]. eexists. split; [reflexivity|]. split.
  - reflexivity.
  - intro H. destruct (H unit (fun _ _ => 1%Q) tt) as (q & Hq & Hz).
    injection Hq as <-. discriminate Hz.
Qed.

(** C6, amended.  In the full-text branch, with fuzzy off as with fuzzy on,
    the statement projects [similarity("title", $1) AS fuzzy_score] and
    orders by rank descending, then fuzzy score descending, then the
    caller's sort.  The score is the store's similarity to the value bound
    at [$1]; the [fuzzy] parameter changes neither the column nor that
    value, so the score is the one computed with fuzzy on. *)
Theorem fuzzy_score_ignores_fuzzy_flag
    (embed : embedding_service) (p : params) :
  semanticEnabled p = false ->
  truthy (query p) = true ->
  exists (pl : plan) (conditions : sqltext) (i : nat),
    search embed p = Executed FullText pl
    /\ plan_sql pl =
         fulltext_projection ++ conditions
         ++ [Lit (nl ++ "        ORDER BY rank DESC, fuzzy_score DESC, ")]
         ++ orderBy (sort p) ++ limit_offset i
    /\ placeholders fulltext_projection = [rank_param; fuzzy_score_param]
    /\ (forall (row : Type) (similarity : row -> value -> Q) (r : row),
          fuzzy_score row similarity pl r
          = option_map (similarity r) (hd_error (plan_values pl)))
    /\ (forall (f : string) (pl' : plan),
          search embed (with_fuzzy f p) = Executed FullText pl' ->
          (forall (row : Type) (similarity : row -> value -> Q) (r : row),
             fuzzy_score row similarity pl' r = fuzzy_score row similarity pl r)).
Proof.
  intros Hs Hq.
  set (b := build_filters p). set (ob := orderBy (sort p)).
  exists (fulltext_plan p b ob).
  exists (fulltext_where (whereClause b) (fst (searchCondition p b))).
  exists (paramIndex (snd (searchCondition p b))).
  split; [|split; [|split; [reflexivity|split]]].
  - unfold search. rewrite Hs, Hq. reflexivity.
  - unfold fulltext_plan, fulltext_body, fulltext_order. cbn [plan_sql].
    destruct (searchCondition p b) as [cond b']. cbn [fst snd].
    rewrite <- !app_assoc. reflexivity.
  - intros row similarity r. unfold fuzzy_score.
    destruct score_params as [_ ->]. cbn [bound_at].
    destruct (plan_values (fulltext_plan p b ob)); reflexivity.
  - intros f pl' Hrun row similarity r.
    unfold search in Hrun.
    change (semanticEnabled (with_fuzzy f p)) with (semanticEnabled p) in Hrun.
    change (query (with_fuzzy f p)) with (query p) in Hrun.
    rewrite Hs, Hq in Hrun. cbn [andb] in Hrun.
    injection Hrun as <-.
    change (build_filters (with_fuzzy f p)) with b.
    change (sort (with_fuzzy f p)) with (sort p). fold ob.
    unfold fuzzy_score. destruct score_params as [_ ->].
    assert (E : forall vs : list value, bound_at 1 vs = hd_error vs).
    { intros [|v vs]; reflexivity. }
    rewrite !E, !fulltext_first_value. reflexivity.
Qed.

Lemma fuzzy_score_ignores_fuzzy_flag_witness :
  semanticEnabled algebra_without_fuzzy = false
  /\ truthy (query algebra_without_fuzzy) = true
  /\ exists pl : plan,
       search no_embedding algebra_without_fuzzy = Executed FullText pl
       /\ placeholders fulltext_projection = [rank_param; fuzzy_score_param].
Proof.
  split; [reflexivity|]. split; [reflexivity|].
  destruct (fuzzy_score_ignores_fuzzy_flag no_embedding algebra_without_fuzzy
              eq_refl eq_refl) as (pl & _ & _ & Hrun & _ & Hproj & _).
  exists pl. split; [exact Hrun | exact Hproj].
Defined.

(** ** C7: parsing of the sort parameter *)

(** C7, as stated, fails on a value with two [":"]: for ["title:asc:x"] the
    text after the first [":"] is ["asc:x"], which is not a direction, so the
    specification orders by ["title" desc]; the handler takes the second
    segment ["asc"] and orders by ["title" asc]. *)
Lemma sort_direction_ends_at_second_colon :
  split_first ":" "title:asc:x" = ("title", Some "asc:x")
  /\ spec_orderBy "title:asc:x"
     = [Lit dq; Raw "title"; Lit dq; Lit " "; Lit "desc"]
  /\ split ":" "title:asc:x" = ["title"; "asc"; "x"]
  /\ orderBy "title:asc:x"
     = [Lit dq; Raw "title"; Lit dq; Lit " "; Lit "asc"]
  /\ orderBy "title:asc:x" <> spec_orderBy "title:asc:x".
Proof.
  repeat split. discriminate.
Qed.

(** C7, amended.  The sort value is split on every [":"] and its first two
    segments are used: the field is the text before the first [":"] and the
    direction the text between the first and the second [":"] (up to the
    end when there is no second one); a direction that is not exactly "asc"
    or "desc", or a missing one, becomes "desc"; an empty field gives the
    literal ["averagerating" DESC].  This is the specification's parsing
    applied to the value cut at its second [":"]. *)
Theorem sort_is_split_on_every_colon (s : string) :
  sortField s = fst (split_first ":" s)
  /\ sortDir s =
       option_map (fun rest => fst (split_first ":" rest))
         (snd (split_first ":" s))
  /\ validSortDir s =
       match sortDir s with
       | Some d => if (d =? "asc")%string then "asc" else "desc"
       | None => "desc"
       end
  /\ orderBy s =
       (if truthy (sortField s)
        then [Lit dq; Raw (sortField s); Lit dq; Lit " "; Lit (validSortDir s)]
        else [Lit (ident "averagerating" ++ " DESC")])
  /\ orderBy s = spec_orderBy (first_two_segments s).
Proof.
  split; [apply sortField_split_first|].
  split; [apply sortDir_split_first|]. split; [|split].
  - unfold validSortDir. destruct (sortDir s) as [d|]; [|reflexivity].
    destruct (d =? "asc")%string eqn:Ea.
    + apply String.eqb_eq in Ea. now subst d.
    + cbn [orb]. destruct (d =? "desc")%string eqn:Ed; [|reflexivity].
      now apply String.eqb_eq in Ed.
  - reflexivity.
  - unfold spec_orderBy. rewrite split_first_two_segments. reflexivity.
Qed.

(** ** C8: tags before scalar filters *)

(** C8.  The fragments are the single fragment of the tags (one containment
    predicate per tag, numbered from [$1] in input order, joined by AND)
    followed by one equality fragment per non-empty scalar filter in the
    order subject, examboard, level, type; the bound values are the tags and
    then the scalar values; the WHERE clause joins the fragments by AND.
    For scenario D this is three predicates joined by AND with the values
    "gcse", "revision", "Physics". *)
Theorem tags_precede_scalar_filters (p : params) :
  let b := build_filters p in
  filters b =
    match parsedTags p with
    | [] => []
    | _ :: _ =>
        [join_pieces " AND "
           (map containment (seq 1 (List.length (parsedTags p))))]
    end
    ++ map (fun icv => equality (fst (snd icv)) (fst icv))
         (combine (seq (1 + List.length (parsedTags p))
                     (List.length (scalar_filters p)))
            (scalar_filters p))
  /\ values b =
       map VStr (parsedTags p)
       ++ map (fun cv => VStr (snd cv)) (scalar_filters p)
  /\ whereClause b =
       match filters b with
       | [] => []
       | _ :: _ => Lit "WHERE " :: join_pieces " AND " (filters b)
       end
  /\ parsedTags scenario_D = ["gcse"; "revision"]
  /\ scalar_filters scenario_D = [("subject", "Physics")]
  /\ render (whereClause (build_filters scenario_D)) =
       ("WHERE " ++ ident "tags" ++ " @> ARRAY[$1] AND "
          ++ ident "tags" ++ " @> ARRAY[$2] AND "
          ++ ident "subject" ++ " = $3")%string
  /\ values (build_filters scenario_D) =
       [VStr "gcse"; VStr "revision"; VStr "Physics"].
Proof.
  intros b.
  destruct (build_filters_shape p) as (Hfs & Hvs & _).
  split; [exact Hfs|]. split; [exact Hvs|]. split.
  - unfold whereClause. destruct (filters b); reflexivity.
  - repeat split.
Qed.

(** ** C10: the score columns name the first parameter *)

(** C10, as stated, fails in its last part: the scores can equal the
    query-based scores although a filter is present.  For
    [{query:"maths", subject:"maths"}] the value bound at [$1] is the
    subject, which is the same text as the query, so on every row and for
    every store both scores are those of the query text. *)
Lemma scores_of_query_despite_filter :
  filters (build_filters maths_in_maths) <> []
  /\ exists pl : plan,
       search no_embedding maths_in_maths = Executed FullText pl
       /\ plan_values pl
          = [VStr "maths"; VStr "maths"; VStr "maths"; VNum 20; VNum 0]
       /\ (forall (row : Type) (ts_rank : row -> value -> Q) (r : row),
             rank row ts_rank pl r
             = Some (ts_rank r (VStr (query maths_in_maths))))
       /\ (forall (row : Type) (similarity : row -> value -> Q) (r : row),
             fuzzy_score row similarity pl r
             = Some (similarity r (VStr (query maths_in_maths))))
       /\ ~ ((forall (row : Type) (ts_rank : row -> value -> Q) (r : row),
                rank row ts_rank pl r
                = Some (ts_rank r (VStr (query maths_in_maths))))
             -> filters (build_filters maths_in_maths) = []).
Proof.
  split; [discriminate|]. eexists. split; [reflexivity|].
  split; [reflexivity|]. split; [reflexivity|]. split; [reflexivity|].
  intro H. discriminate H. reflexivity.
Qed.

(** C10, amended.  In the full-text branch both score columns name the
    hard-coded [$1], so both scores are computed from the first bound
    value.  With a tag or scalar filter present this is the first filter's
    value (the first tag, else the first non-empty scalar filter), while
    the query text has its own slot after the filter values; without
    filters it is the query text.  The value at [$1] is the query text
    exactly when there is no filter or the first filter's value is the same
    text as the query. *)
Theorem scores_use_first_bound_value
    (embed : embedding_service) (p : params) :
  semanticEnabled p = false ->
  truthy (query p) = true ->
  let b := build_filters p in
  let k := List.length (values b) in
  exists pl : plan,
    search embed p = Executed FullText pl
    /\ placeholders fulltext_projection = [1; 1]
    /\ (forall (row : Type) (ts_rank : row -> value -> Q) (r : row),
          rank row ts_rank pl r
          = option_map (ts_rank r) (bound_at 1 (plan_values pl)))
    /\ (forall (row : Type) (similarity : row -> value -> Q) (r : row),
          fuzzy_score row similarity pl r
          = option_map (similarity r) (bound_at 1 (plan_values pl)))
    /\ bound_at 1 (plan_values pl)
       = Some (hd (VStr (query p))
                 (map VStr (parsedTags p)
                  ++ map (fun cv => VStr (snd cv)) (scalar_filters p)))
    /\ bound_at (k + 1) (plan_values pl) = Some (VStr (query p))
    /\ (k + 1 = 1 <-> filters b = [])
    /\ (bound_at 1 (plan_values pl) = Some (VStr (query p))
        <-> filters b = [] \/ hd_error (values b) = Some (VStr (query p))).
Proof.
  intros Hs Hq b k.
  destruct (build_filters_shape p) as (_ & Hv & _). fold b in Hv.
  pose proof (no_filters_no_values p) as Hnone. fold b in Hnone.
  assert (E : forall vs : list value, bound_at 1 vs = hd_error vs).
  { intros [|v vs]; reflexivity. }
  exists (fulltext_plan p b (orderBy (sort p))).
  split; [|split; [reflexivity|split; [reflexivity|split; [reflexivity|]]]].
  - unfold search. rewrite Hs, Hq. reflexivity.
  - rewrite E, fulltext_first_value, <- Hv.
    split; [reflexivity|]. split; [|split].
    + destruct (searchCondition_spec p b) as (_ & Hvals & _).
      cbn [plan_values fulltext_plan]. rewrite Hvals, <- app_assoc. unfold k.
      rewrite (bound_at_app_right (values b) _ 0). reflexivity.
    + rewrite Hnone. unfold k. destruct (values b); cbn [List.length].
      * split; reflexivity.
      * split; [lia | discriminate].
    + rewrite Hnone. destruct (values b) as [|v vs]; cbn [hd hd_error].
      * split; [now left | reflexivity].
      * split.
        -- intros H. right. exact H.
        -- intros [H|H]; [discriminate H | exact H].
Qed.

Lemma scores_use_first_bound_value_witness :
  semanticEnabled algebra_in_maths = false
  /\ truthy (query algebra_in_maths) = true
  /\ exists pl : plan,
       search no_embedding algebra_in_maths = Executed FullText pl
       /\ bound_at 1 (plan_values pl) = Some (VStr "Maths")
       /\ bound_at 2 (plan_values pl) = Some (VStr "algebra").
Proof.
  split; [reflexivity|]. split; [reflexivity|].
  destruct (scores_use_first_bound_value no_embedding algebra_in_maths
              eq_refl eq_refl) as (pl & Hrun & _ & _ & _ & H1 & H2 & _).
  exists pl. split; [exact Hrun|]. split; [exact H1 | exact H2].
Defined.

(** * Further properties of the handler *)

(** ** Splitting and joining *)

Lemma split_not_nil (c : ascii) (s : string) : split c s <> [].
Proof.
  destruct s as [|a s]; cbn [split]; [discriminate|].
  destruct (Ascii.eqb a c); [discriminate|].
  destruct (split c s); discriminate.
Qed.

Lemma join_cons_char (sep : string) (a : ascii) (seg : string)
    (segs : list string) :
  join sep (String a seg :: segs) = String a (join sep (seg :: segs)).
Proof. destruct segs; reflexivity. Qed.

Lemma join_split (c : ascii) (s : string) :
  join (String c EmptyString) (split c s) = s.
Proof.
  induction s as [|a s IH]; [reflexivity|].
  cbn [split]. pose proof (split_not_nil c s) as Hne.
  destruct (Ascii.eqb a c) eqn:E.
  - apply Ascii.eqb_eq in E. subst a.
    destruct (split c s) as [|seg segs]; [contradiction|].
    change (join (String c EmptyString) (EmptyString :: seg :: segs))
      with (String c (join (String c EmptyString) (seg :: segs))).
    now rewrite IH.
  - destruct (split c s) as [|seg segs]; [contradiction|].
    now rewrite join_cons_char, IH.
Qed.

Lemma split_segments_plain (c : ascii) (s : string) :
  Forall (fun seg => has_char c seg = false) (split c s).
Proof.
  induction s as [|a s IH]; cbn [split].
  - constructor; [reflexivity | constructor].
  - destruct (Ascii.eqb a c) eqn:E.
    + constructor; [reflexivity | exact IH].
    + destruct (split c s) as [|seg segs]; inversion IH; subst.
      * constructor; [|constructor]. cbn [has_char]. now rewrite E.
      * constructor; [|assumption]. cbn [has_char]. now rewrite E.
Qed.

Lemma length_split (c : ascii) (s : string) :
  List.length (split c s) = 1 + count_char c s.
Proof.
  induction s as [|a s IH]; [reflexivity|].
  cbn [split count_char]. destruct (Ascii.eqb a c).
  - cbn [List.length]. rewrite IH. reflexivity.
  - pose proof (split_not_nil c s) as Hne.
    destruct (split c s) as [|seg segs]; [contradiction|]. exact IH.
Qed.

Lemma split_plain (c : ascii) (x : string) :
  has_char c x = false -> split c x = [x].
Proof.
  induction x as [|a x IH]; cbn [has_char split]; [reflexivity|].
  intros H. apply orb_false_iff in H. destruct H as [Ha Hx].
  now rewrite Ha, (IH Hx).
Qed.

Lemma split_app_sep (c : ascii) (x rest : string) :
  has_char c x = false ->
  split c (x ++ String c rest) = x :: split c rest.
Proof.
  induction x as [|a x IH]; cbn [has_char String.append split].
  - intros _. now rewrite Ascii.eqb_refl.
  - intros H. apply orb_false_iff in H. destruct H as [Ha Hx].
    now rewrite Ha, (IH Hx).
Qed.

Lemma split_join (c : ascii) (l : list string) :
  l <> [] ->
  Forall (fun x => has_char c x = false) l ->
  split c (join (String c EmptyString) l) = l.
Proof.
  induction l as [|x [|y l] IH]; intros Hne Hall.
  - contradiction.
  - apply split_plain. exact (Forall_inv Hall).
  - change (join (String c EmptyString) (x :: y :: l))
      with (x ++ String c (join (String c EmptyString) (y :: l)))%string.
    rewrite (split_app_sep _ _ _ (Forall_inv Hall)).
    rewrite IH; [reflexivity | discriminate | exact (Forall_inv_tail Hall)].
Qed.

Lemma parsedTags_nil (p : params) : parsedTags p = [] <-> tags p = EmptyString.
Proof.
  unfold parsedTags. destruct (tags p) as [|a s] eqn:E; cbn [truthy].
  - tauto.
  - split; [|discriminate]. intros H. now apply split_not_nil in H.
Qed.

(** ** The tags (X1) *)

(** X1.  The tags are the segments of the [tags] parameter between its
    commas, kept as they are: joining them with commas gives the parameter
    back, no tag holds a comma, a non-empty parameter with [n] commas gives
    [n + 1] tags (empty ones included) and an empty parameter none; the
    tags are the first bound values, in that order. *)
Theorem tags_are_kept_verbatim (p : params) :
  join "," (parsedTags p) = tags p
  /\ Forall (fun t => has_char "," t = false) (parsedTags p)
  /\ List.length (parsedTags p) =
       (if truthy (tags p) then 1 + count_char "," (tags p) else 0)
  /\ firstn (List.length (parsedTags p)) (values (build_filters p))
     = map VStr (parsedTags p).
Proof.
  split; [|split; [|split]].
  - unfold parsedTags. destruct (tags p) as [|a s] eqn:E; [reflexivity|].
    cbn [truthy]. apply (join_split ","%char).
  - unfold parsedTags. destruct (truthy (tags p)); [|constructor].
    apply split_segments_plain.
  - unfold parsedTags. destruct (truthy (tags p)); [|reflexivity].
    apply length_split.
  - destruct (build_filters_shape p) as (_ & Hv & _). rewrite Hv.
    rewrite <- (length_map VStr (parsedTags p)).
    rewrite firstn_app, firstn_all, Nat.sub_diag. cbn [firstn].
    apply app_nil_r.
Qed.

(** ** The vector literal (X2) *)

(** X2.  For a non-empty embedding whose numbers hold no comma, the vector
    literal is the bracketed text whose segments between commas are the
    numbers of the embedding, in order: nothing is lost or merged. *)
Theorem embedding_literal_components (embedding : list string) :
  embedding <> [] ->
  Forall (fun x => has_char "," x = false) embedding ->
  exists inner : string,
    embeddingLiteral embedding = ("[" ++ inner ++ "]")%string
    /\ split "," inner = embedding
    /\ count_char "," inner = List.length embedding - 1.
Proof.
  intros Hne Hall. exists (join "," embedding).
  split; [reflexivity|].
  assert (Hsplit : split "," (join "," embedding) = embedding)
    by exact (split_join ","%char embedding Hne Hall).
  split; [exact Hsplit|].
  pose proof (length_split ","%char (join "," embedding)) as Hlen.
  rewrite Hsplit in Hlen. lia.
Qed.

Lemma embedding_literal_components_witness :
  ["0.1"; "-2e-7"; "3"] <> []
  /\ Forall (fun x => has_char "," x = false) ["0.1"; "-2e-7"; "3"]
  /\ exists inner : string,
       embeddingLiteral ["0.1"; "-2e-7"; "3"] = ("[" ++ inner ++ "]")%string
       /\ split "," inner = ["0.1"; "-2e-7"; "3"].
Proof.
  assert (Hne : ["0.1"; "-2e-7"; "3"] <> []) by discriminate.
  assert (Hall : Forall (fun x => has_char "," x = false)
                   ["0.1"; "-2e-7"; "3"])
    by (repeat constructor).
  split; [exact Hne|]. split; [exact Hall|].
  destruct (embedding_literal_components _ Hne Hall) as (inner & H1 & H2 & _).
  exists inner. split; [exact H1 | exact H2].
Defined.

(** ** The WHERE clause of the filters (X3) *)

Lemma scalar_filters_nil (p : params) :
  scalar_filters p = []
  <-> subject p = EmptyString /\ examboard p = EmptyString
      /\ level p = EmptyString /\ type p = EmptyString.
Proof.
  unfold scalar_filters.
  destruct (subject p), (examboard p), (level p), (type p);
    cbn [filter snd truthy]; split;
    try discriminate; try tauto;
    intros (H1 & H2 & H3 & H4); discriminate.
Qed.

Lemma truthy_join_pieces (sep : string) (frags : list sqltext) :
  frags <> [] ->
  Forall (fun f => placeholders f <> []) frags ->
  truthy (render (join_pieces sep frags)) = true.
Proof.
  intros Hne Hall. destruct frags as [|f rest]; [contradiction|].
  assert (Hf : truthy (render f) = true).
  { destruct (truthy (render f)) eqn:E; [reflexivity|].
    apply falsy_render_no_placeholders in E.
    now apply (Forall_inv Hall) in E. }
  destruct rest as [|g rest]; [exact Hf|].
  change (join_pieces sep (f :: g :: rest))
    with (f ++ Lit sep :: join_pieces sep (g :: rest)).
  now rewrite render_app, truthy_append, Hf.
Qed.

(** X3.  The statement gets a WHERE clause from the filters exactly when
    one of [tags], [subject], [examboard], [level], [type] is not empty;
    the clause is then the word WHERE followed by a non-empty condition,
    and otherwise it is the empty text. *)
Theorem where_clause_iff_a_filter (p : params) :
  (whereClause (build_filters p) = []
   <-> tags p = EmptyString /\ subject p = EmptyString
       /\ examboard p = EmptyString /\ level p = EmptyString
       /\ type p = EmptyString)
  /\ (whereClause (build_filters p) = []
      \/ exists conditions : string,
           render (whereClause (build_filters p))
           = ("WHERE " ++ conditions)%string
           /\ truthy conditions = true).
Proof.
  destruct (cursor_invariant_build p) as (_ & _ & Hall).
  destruct (build_filters_shape p) as (_ & Hv & _).
  pose proof (no_filters_no_values p) as Hnone.
  split.
  - transitivity (filters (build_filters p) = []).
    + unfold whereClause.
      destruct (filters (build_filters p)); cbn [List.length Nat.ltb Nat.leb].
      * tauto.
      * split; discriminate.
    + rewrite Hnone, Hv, <- parsedTags_nil, <- scalar_filters_nil.
      split.
      * intros H. apply app_eq_nil in H. destruct H as [H1 H2].
        apply map_eq_nil in H1. apply map_eq_nil in H2. now split.
      * intros [H1 H2]. now rewrite H1, H2.
  - unfold whereClause.
    destruct (filters (build_filters p)) as [|f fs] eqn:E; [now left|].
    right. cbn [List.length Nat.ltb Nat.leb].
    exists (render (join_pieces " AND " (f :: fs))). split; [reflexivity|].
    apply truthy_join_pieces; [discriminate | exact Hall].
Qed.

(** ** Request text stays out of the statement (X4) *)

Lemma filters_by_shape (p p' : params) :
  List.length (parsedTags p) = List.length (parsedTags p') ->
  map truthy [subject p; examboard p; level p; type p]
  = map truthy [subject p'; examboard p'; level p'; type p'] ->
  filters (build_filters p) = filters (build_filters p')
  /\ paramIndex (build_filters p) = paramIndex (build_filters p').
Proof.
  intros Hlen Hsc.
  destruct (build_filters_shape p) as (Hf & _ & Hi).
  destruct (build_filters_shape p') as (Hf' & _ & Hi').
  assert (Hcol : map fst (scalar_filters p) = map fst (scalar_filters p')).
  { unfold scalar_filters. cbn [map] in Hsc.
    injection Hsc as H1 H2 H3 H4.
    cbn [filter snd]. rewrite H1, H2, H3, H4.
    destruct (truthy (subject p')), (truthy (examboard p')),
      (truthy (level p')), (truthy (type p')); reflexivity. }
  assert (Hn : List.length (scalar_filters p) = List.length (scalar_filters p')).
  { rewrite <- (length_map fst (scalar_filters p)), Hcol. apply length_map. }
  split.
  - rewrite Hf, Hf', Hlen, Hn. f_equal.
    + destruct (parsedTags p), (parsedTags p'); try discriminate Hlen;
        reflexivity.
    + generalize (seq (1 + List.length (parsedTags p'))
                    (List.length (scalar_filters p'))).
      revert Hcol. generalize (scalar_filters p), (scalar_filters p').
      induction l as [|cv l IH]; intros [|cv' l'] Hcol idx;
        try discriminate Hcol.
      * reflexivity.
      * destruct idx as [|i idx]; [reflexivity|].
        cbn [combine map fst snd] in *. injection Hcol as Hc Hrest.
        rewrite Hc. f_equal. now apply IH.
  - rewrite Hi, Hi', Hlen, Hn. reflexivity.
Qed.

(** X4.  The text of the statement does not depend on the texts of the
    query, the tags, the scalar filters, [limit] or [offset], nor on the
    embedding: two requests with the same number of tags, the same
    non-empty scalar filters, the same sort value and the same branch
    tests are compiled to the same text, whatever these values are.  They
    reach the store as bound values only. *)
Theorem statement_text_ignores_values
    (embed embed' : embedding_service) (p p' : params)
    (s s' : strategy) (pl pl' : plan) :
  statement_shape p = statement_shape p' ->
  search embed p = Executed s pl ->
  search embed' p' = Executed s' pl' ->
  s = s' /\ render (plan_sql pl) = render (plan_sql pl').
Proof.
  intros Hshape Hrun Hrun'.
  pose proof (f_equal (fun x => fst (fst (fst (fst (fst x))))) Hshape) as Hlen.
  pose proof (f_equal (fun x => snd (fst (fst (fst (fst x))))) Hshape) as Hsc.
  pose proof (f_equal (fun x => snd (fst (fst (fst x)))) Hshape) as Hsort.
  pose proof (f_equal (fun x => snd (fst (fst x))) Hshape) as Hfz.
  pose proof (f_equal (fun x => snd (fst x)) Hshape) as Hsem.
  pose proof (f_equal snd Hshape) as Hq.
  cbn [statement_shape fst snd] in Hlen, Hsc, Hsort, Hfz, Hsem, Hq.
  destruct (filters_by_shape p p' Hlen Hsc) as [Hf Hi].
  assert (Hwc : whereClause (build_filters p) = whereClause (build_filters p'))
    by (unfold whereClause; now rewrite Hf).
  unfold search in Hrun, Hrun'. rewrite <- Hsem, <- Hq, <- Hsort in Hrun'.
  destruct (semanticEnabled p && truthy (query p)).
  - destruct (embed (query p)); [|discriminate Hrun].
    destruct (embed' (query p')); [|discriminate Hrun'].
    injection Hrun as <- <-. injection Hrun' as <- <-.
    split; [reflexivity|]. cbn [plan_sql semantic_plan]. unfold semantic_sql.
    now rewrite Hwc, Hi.
  - destruct (truthy (query p)).
    + injection Hrun as <- <-. injection Hrun' as <- <-.
      split; [reflexivity|]. cbn [plan_sql fulltext_plan].
      unfold fulltext_body, searchCondition. unfold fuzzyEnabled in Hfz.
      rewrite <- Hfz, Hwc, Hi.
      destruct (fuzzy p =? "true")%string; reflexivity.
    + injection Hrun as <- <-. injection Hrun' as <- <-.
      split; [reflexivity|]. cbn [plan_sql filter_only_plan].
      unfold filter_only_sql. now rewrite Hwc, Hi.
Qed.

Lemma statement_text_ignores_values_witness :
  statement_shape algebra_request = statement_shape hostile_request
  /\ exists pl pl' : plan,
       search no_embedding algebra_request = Executed FullText pl
       /\ search no_embedding hostile_request = Executed FullText pl'
       /\ render (plan_sql pl) = render (plan_sql pl')
       /\ plan_values pl' =
            [VStr "$1"; VStr "$2"; VStr "Physics' --"; VStr "x' OR 1=1; --";
             VStr "x' OR 1=1; --"; VStr "-5"; VStr "abc"].
Proof.
  split; [reflexivity|].
  eexists. eexists. split; [reflexivity|]. split; [reflexivity|]. split.
  - apply (statement_text_ignores_values no_embedding no_embedding
             algebra_request hostile_request FullText FullText _ _
             eq_refl eq_refl eq_refl).
  - reflexivity.
Defined.

(** ** Parameters the branch does not read (X5) *)

(** X5.  The [semantic] parameter is read only through its comparison with
    "true" and only when the query is not empty; the [fuzzy] parameter only
    through its comparison with "true" and only in the full-text branch.
    Changing them otherwise changes neither the branch, nor the statement,
    nor the bound values. *)
Theorem unread_parameters_change_nothing
    (embed : embedding_service) (p : params) (f s : string) :
  (truthy (query p) = true -> (s =? "true")%string = semanticEnabled p) ->
  (strategy_of (search embed p) = FullText ->
   (f =? "true")%string = fuzzyEnabled p) ->
  search embed (with_semantic s (with_fuzzy f p)) = search embed p.
Proof.
  intros Hs Hf. unfold search in *.
  change (build_filters (with_semantic s (with_fuzzy f p)))
    with (build_filters p).
  change (sort (with_semantic s (with_fuzzy f p))) with (sort p).
  change (query (with_semantic s (with_fuzzy f p))) with (query p).
  change (semanticEnabled (with_semantic s (with_fuzzy f p)))
    with (s =? "true")%string.
  destruct (truthy (query p)) eqn:Hq.
  - rewrite (Hs eq_refl). destruct (semanticEnabled p); cbn [andb] in *.
    + destruct (embed (query p)); reflexivity.
    + specialize (Hf eq_refl). unfold fuzzyEnabled in Hf.
      unfold fulltext_plan, fulltext_body, searchCondition.
      change (fuzzy (with_semantic s (with_fuzzy f p))) with f.
      rewrite Hf. reflexivity.
  - rewrite !andb_false_r. reflexivity.
Qed.

Lemma unread_parameters_change_nothing_witness :
  (truthy (query semantic_algebra) = true ->
   ("true" =? "true")%string = semanticEnabled semantic_algebra)
  /\ (strategy_of (search embed_any semantic_algebra) = FullText ->
      ("no" =? "true")%string = fuzzyEnabled semantic_algebra)
  /\ search embed_any (with_semantic "true" (with_fuzzy "no" semantic_algebra))
     = search embed_any semantic_algebra.
Proof.
  assert (H1 : truthy (query semantic_algebra) = true ->
               ("true" =? "true")%string = semanticEnabled semantic_algebra)
    by (intros _; reflexivity).
  assert (H2 : strategy_of (search embed_any semantic_algebra) = FullText ->
               ("no" =? "true")%string = fuzzyEnabled semantic_algebra)
    by (intros H; discriminate H).
  split; [exact H1|]. split; [exact H2|].
  exact (unread_parameters_change_nothing embed_any semantic_algebra
           "no" "true" H1 H2).
Defined.

(** ** The full-text condition without fuzzy match (X6) *)

(** X6.  With a non-empty query and the semantic flag off, any [fuzzy]
    value other than "true" leaves the full-text condition alone in the
    WHERE clause, after the filters and AND when there are filters: the
    query is bound at the one slot [$(k+1)] after the [k] filter values,
    and [limit] and [offset] follow at [$(k+2)] and [$(k+3)]. *)
Theorem fulltext_without_fuzzy_has_one_condition
    (embed : embedding_service) (p : params) :
  semanticEnabled p = false ->
  truthy (query p) = true ->
  fuzzyEnabled p = false ->
  let b := build_filters p in
  let k := List.length (values b) in
  exists pl : plan,
    search embed p = Executed FullText pl
    /\ plan_sql pl =
         fulltext_projection
         ++ [Lit ("        FROM " ++ ident "resources" ++ nl ++ "        ")]
         ++ match filters b with
            | [] => [Lit "WHERE "]
            | _ :: _ => whereClause b ++ [Lit " AND "]
            end
         ++ [Lit " ";
             Lit (ident "search_tsv" ++ " @@ plainto_tsquery('english', ");
             Ph (k + 1); Lit ")"]
         ++ fulltext_order (orderBy (sort p))
         ++ limit_offset (k + 2)
    /\ plan_values pl = values b ++ [VStr (query p); limit p; offset p].
Proof.
  intros Hs Hq Hf b k.
  destruct (cursor_invariant_build p) as (Hc & _). fold b in Hc. fold k in Hc.
  exists (fulltext_plan p b (orderBy (sort p))). split.
  - unfold search. rewrite Hs, Hq. reflexivity.
  - unfold fulltext_plan, fulltext_body, searchCondition.
    unfold fuzzyEnabled in Hf. rewrite Hf.
    cbn [plan_sql plan_values snd values paramIndex].
    rewrite Hc. replace (1 + k) with (k + 1) by lia.
    replace (S (k + 1)) with (k + 2) by lia.
    split.
    + unfold fulltext_where. rewrite truthy_whereClause.
      destruct (filters b); cbn [List.length Nat.eqb negb app];
        rewrite <- ?app_assoc; reflexivity.
    + now rewrite <- app_assoc.
Qed.

Lemma fulltext_without_fuzzy_has_one_condition_witness :
  semanticEnabled algebra_without_fuzzy = false
  /\ truthy (query algebra_without_fuzzy) = true
  /\ fuzzyEnabled algebra_without_fuzzy = false
  /\ exists pl : plan,
       search no_embedding algebra_without_fuzzy = Executed FullText pl
       /\ plan_values pl = [VStr "algebra"; VNum 20; VNum 0].
Proof.
  split; [reflexivity|]. split; [reflexivity|]. split; [reflexivity|].
  destruct (fulltext_without_fuzzy_has_one_condition no_embedding
              algebra_without_fuzzy eq_refl eq_refl eq_refl)
    as (pl & Hrun & _ & Hv).
  exists pl. split; [exact Hrun | exact Hv].
Defined.

(** ** The handler and its collaborators (X7 to X11) *)

Section HandlerProperties.

Variable row : Type.

Lemma search_rows_executed
    (c : collaborators row) (p : params) (s : strategy) (pl : plan) :
  search (service c) p = Executed s pl ->
  search_rows c p []
  = (db_query c (render (plan_sql pl)) (plan_values pl),
     embedding_calls p ++ [CallQuery (render (plan_sql pl)) (plan_values pl)]).
Proof.
  unfold search, search_rows, embedding_calls, service, bind,
    await_embedding, await_query, await.
  destruct (semanticEnabled p && truthy (query p)).
  - destruct (embeddings_create c (query p)) as [message|embedding];
      [discriminate|].
    intros [= <- <-]. reflexivity.
  - destruct (truthy (query p)); intros [= <- <-]; reflexivity.
Qed.

Lemma search_rows_failed
    (c : collaborators row) (p : params) (s : strategy) :
  search (service c) p = Failed s ->
  semanticEnabled p && truthy (query p) = true
  /\ exists message : string,
       embeddings_create c (query p) = inl message
       /\ search_rows c p [] = (inl message, [CallEmbeddings (query p)]).
Proof.
  unfold search, search_rows, service, bind, await_embedding, await_query,
    await.
  destruct (semanticEnabled p && truthy (query p)).
  - destruct (embeddings_create c (query p)) as [message|embedding];
      [|discriminate].
    intros _. split; [reflexivity|]. exists message. now split.
  - destruct (truthy (query p)); discriminate.
Qed.

Lemma search_failed_iff (c : collaborators row) (p : params) :
  (exists s, search (service c) p = Failed s)
  <-> semanticEnabled p && truthy (query p) = true
      /\ exists message, embeddings_create c (query p) = inl message.
Proof.
  split.
  - intros [s H]. destruct (search_rows_failed c p s H) as (Hb & m & Hm & _).
    split; [exact Hb | now exists m].
  - intros (Hb & m & Hm). exists Semantic.
    unfold search, service. now rewrite Hb, Hm.
Qed.

(** X7.  The calls of a request, in order: the embedding service, once and
    with the query as input, when the semantic flag is set and the query is
    not empty, and not at all otherwise; then the store, once and with the
    compiled statement and its values, unless the embedding call failed;
    then the error log, once, when the reply is an error. *)
Theorem calls_of_a_request (c : collaborators row) (rq : request_query) :
  snd (handler c rq)
  = embedding_calls (destructure rq)
    ++ match compiled (search (service c) (destructure rq)) with
       | Some (sql, vals) => [CallQuery sql vals]
       | None => []
       end
    ++ match fst (handler c rq) with
       | Ok _ => []
       | ServerError _ _ message => [CallLogError message]
       end.
Proof.
  unfold handler. set (p := destructure rq).
  destruct (search (service c) p) as [s pl|s] eqn:Hrun.
  - rewrite (search_rows_executed c p s pl Hrun).
    cbn [compiled plan_of option_map].
    destruct (db_query c (render (plan_sql pl)) (plan_values pl));
      cbn [fst snd]; rewrite <- ?app_assoc; [reflexivity|].
    now rewrite app_nil_r.
  - destruct (search_rows_failed c p s Hrun) as (Hb & m & _ & Hrows).
    rewrite Hrows. unfold embedding_calls. rewrite Hb. reflexivity.
Qed.

(** X8.  The reply is an error exactly when the embedding call of the
    semantic branch throws or the store throws on the compiled statement;
    it then has status 500, the fixed error text and the message of the
    thrown error. *)
Theorem error_replies (c : collaborators row) (rq : request_query) :
  let p := destructure rq in
  (forall (code : nat) (error message : string),
     fst (handler c rq) = ServerError code error message ->
     code = 500 /\ error = "An error occurred while searching")
  /\ (forall message : string,
        fst (handler c rq)
        = ServerError 500 "An error occurred while searching" message
        <-> (semanticEnabled p && truthy (query p) = true
             /\ embeddings_create c (query p) = inl message)
            \/ (exists (s : strategy) (pl : plan),
                  search (service c) p = Executed s pl
                  /\ db_query c (render (plan_sql pl)) (plan_values pl)
                     = inl message)).
Proof.
  intros p. unfold handler. fold p.
  destruct (search (service c) p) as [s pl|s] eqn:Hrun.
  - rewrite (search_rows_executed c p s pl Hrun).
    assert (Hno : ~ (semanticEnabled p && truthy (query p) = true
                     /\ exists m, embeddings_create c (query p) = inl m)).
    { intros H. apply search_failed_iff in H. destruct H as [s' H].
      rewrite Hrun in H. discriminate H. }
    destruct (db_query c (render (plan_sql pl)) (plan_values pl))
      as [m|rows] eqn:Hdb; cbn [fst]; split.
    + intros code error message [= <- <- _]. now split.
    + intros message. split.
      * intros [= <-]. right. exists s, pl. now split.
      * intros [[Hb Hm] | (s' & pl' & [= <- <-] & Hm)].
        -- exfalso. apply Hno. split; [exact Hb | now exists message].
        -- rewrite Hdb in Hm. now injection Hm as ->.
    + discriminate.
    + intros message. split; [discriminate|].
      intros [[Hb Hm] | (s' & pl' & [= <- <-] & Hm)].
      * exfalso. apply Hno. split; [exact Hb | now exists message].
      * rewrite Hdb in Hm. discriminate Hm.
  - destruct (search_rows_failed c p s Hrun) as (Hb & m & Hm & Hrows).
    rewrite Hrows. cbn [fst]. split.
    + intros code error message [= <- <- _]. now split.
    + intros message. split.
      * intros [= <-]. left. now split.
      * intros [[_ Hm'] | (s' & pl' & H & _)]; [|discriminate H].
        rewrite Hm in Hm'. now injection Hm' as ->.
Qed.

(** X9.  No fallback: when the semantic flag is set, the query is not
    empty and the embedding call throws, the reply is the error with the
    message of that call; the store is not queried and no other strategy
    is tried. *)
Theorem embedding_failure_fails_the_request
    (c : collaborators row) (rq : request_query) (message : string) :
  semanticEnabled (destructure rq) = true ->
  truthy (query (destructure rq)) = true ->
  embeddings_create c (query (destructure rq)) = inl message ->
  handler c rq
  = (ServerError 500 "An error occurred while searching" message,
     [CallEmbeddings (query (destructure rq)); CallLogError message]).
Proof.
  intros Hs Hq Hm.
  unfold handler, search_rows, bind, await_embedding, await.
  now rewrite Hs, Hq, Hm.
Qed.

(** X10.  A successful reply carries the rows the store returned for the
    compiled statement of the branch that ran; [totalHits] is the number of
    these rows, the processing time is the difference of the two clock
    readings, and the two flags repeat the comparisons of [fuzzy] and
    [semantic] with "true", whichever branch ran: the semantic branch ran
    exactly when the semantic flag of the reply is set and the query is
    not empty. *)
Theorem successful_reply
    (c : collaborators row) (rq : request_query) (body : envelope row) :
  fst (handler c rq) = Ok body ->
  let p := destructure rq in
  exists (s : strategy) (pl : plan),
    search (service c) p = Executed s pl
    /\ db_query c (render (plan_sql pl)) (plan_values pl) = inr (hits body)
    /\ totalHits body = List.length (hits body)
    /\ processingTimeMs body = (now_at_end c - now_at_start c)%Z
    /\ reply_fuzzyEnabled body = fuzzyEnabled p
    /\ reply_semanticEnabled body = semanticEnabled p
    /\ (s = Semantic
        <-> reply_semanticEnabled body = true /\ truthy (query p) = true).
Proof.
  intros Hok p. unfold handler in Hok. fold p in Hok.
  destruct (search (service c) p) as [s pl|s] eqn:Hrun.
  - rewrite (search_rows_executed c p s pl Hrun) in Hok.
    destruct (db_query c (render (plan_sql pl)) (plan_values pl))
      as [m|rows] eqn:Hdb; [discriminate Hok|].
    cbn [fst] in Hok. injection Hok as <-.
    exists s, pl. split; [reflexivity|]. split; [exact Hdb|].
    split; [reflexivity|]. split; [reflexivity|]. split; [reflexivity|].
    split; [reflexivity|].
    change (reply_semanticEnabled _) with (semanticEnabled p).
    rewrite <- andb_true_iff.
    unfold search in Hrun.
    destruct (semanticEnabled p && truthy (query p)).
    + destruct (service c (query p)); [|discriminate Hrun].
      injection Hrun as <- _. now split.
    + destruct (truthy (query p)); injection Hrun as <- _;
        split; discriminate.
  - destruct (search_rows_failed c p s Hrun) as (_ & m & _ & Hrows).
    rewrite Hrows in Hok. discriminate Hok.
Qed.

(** X11.  Pagination is passed through: whenever the store is queried, the
    last two bound values are the request's [limit] and [offset] texts as
    they came, whatever they are, or the numbers 20 and 0 when the
    parameter is absent. *)
Theorem pagination_is_passed_through
    (c : collaborators row) (rq : request_query)
    (sql : string) (vals : list value) :
  In (CallQuery sql vals) (snd (handler c rq)) ->
  exists front : list value,
    vals = front
           ++ [match rq_limit rq with Some text => VStr text | None => VNum 20 end;
               match rq_offset rq with Some text => VStr text | None => VNum 0 end].
Proof.
  intros Hin.
  assert (Hlast : forall embed s pl,
             search embed (destructure rq) = Executed s pl ->
             exists front,
               plan_values pl
               = front ++ [limit (destructure rq); offset (destructure rq)]).
  { intros embed s pl. unfold search.
    destruct (semanticEnabled (destructure rq) && truthy (query (destructure rq))).
    - destruct (embed (query (destructure rq))) as [e|]; [|discriminate].
      intros [= _ <-]. cbn [plan_values semantic_plan].
      exists (values (build_filters (destructure rq)) ++ [VStr (embeddingLiteral e)]).
      now rewrite <- app_assoc.
    - destruct (truthy (query (destructure rq))); intros [= _ <-].
      + cbn [plan_values fulltext_plan]. now eexists.
      + cbn [plan_values filter_only_plan]. now eexists. }
  unfold handler in Hin.
  destruct (search (service c) (destructure rq)) as [s pl|s] eqn:Hrun.
  - rewrite (search_rows_executed c _ s pl Hrun) in Hin.
    destruct (Hlast _ _ _ Hrun) as [front Hfront].
    assert (Hq : In (CallQuery sql vals)
                   (embedding_calls (destructure rq)
                    ++ [CallQuery (render (plan_sql pl)) (plan_values pl)])
                 -> vals = plan_values pl).
    { intros H. apply in_app_or in H. destruct H as [H|[H|[]]].
      - unfold embedding_calls in H.
        destruct (semanticEnabled (destructure rq)
                  && truthy (query (destructure rq)));
          [destruct H as [H|[]]; discriminate H | destruct H].
      - now injection H. }
    assert (Hvals : vals = plan_values pl).
    { destruct (db_query c (render (plan_sql pl)) (plan_values pl));
        cbn [snd] in Hin.
      - apply in_app_or in Hin. destruct Hin as [H|[H|[]]];
          [now apply Hq | discriminate H].
      - now apply Hq. }
    exists front. rewrite Hvals, Hfront.
    destruct rq as [q tg sb eb lv ty [li|] [off|] so fz se]; reflexivity.
  - destruct (search_rows_failed c _ s Hrun) as (_ & m & _ & Hrows).
    rewrite Hrows in Hin. cbn [snd app] in Hin.
    destruct Hin as [H|[H|[]]]; discriminate H.
Qed.

End HandlerProperties.

Lemma embedding_failure_fails_the_request_witness :
  semanticEnabled (destructure semantic_request) = true
  /\ truthy (query (destructure semantic_request)) = true
  /\ embeddings_create store_two_rows (query (destructure semantic_request))
     = inl "timeout"
  /\ handler store_two_rows semantic_request
     = (ServerError 500 "An error occurred while searching" "timeout",
        [CallEmbeddings "algebra"; CallLogError "timeout"]).
Proof.
  split; [reflexivity|]. split; [reflexivity|]. split; [reflexivity|].
  exact (embedding_failure_fails_the_request nat store_two_rows
           semantic_request "timeout" eq_refl eq_refl eq_refl).
Defined.

Lemma successful_reply_witness :
  exists body : envelope nat,
    fst (handler store_two_rows paged_request) = Ok body
    /\ hits body = [1; 2]
    /\ reply_semanticEnabled body = true
    /\ exists (s : strategy) (pl : plan),
         search (service store_two_rows) (destructure paged_request)
         = Executed s pl
         /\ s <> Semantic.
Proof.
  eexists. split; [reflexivity|]. split; [reflexivity|].
  split; [reflexivity|].
  destruct (successful_reply nat store_two_rows paged_request _ eq_refl)
    as (s & pl & Hrun & _ & _ & _ & _ & _ & Hsem).
  exists s, pl. split; [exact Hrun|].
  intros H. apply Hsem in H. destruct H as [_ H]. discriminate H.
Defined.

Lemma pagination_is_passed_through_witness :
  exists (sql : string) (vals : list value),
    In (CallQuery sql vals) (snd (handler store_two_rows paged_request))
    /\ exists front : list value,
         vals = front ++ [VStr "-5"; VStr "abc"].
Proof.
  eexists. eexists.
  refine ((fun H =>
             conj H (pagination_is_passed_through nat store_two_rows
                       paged_request _ _ H)) _).
  left. reflexivity.
Defined.

(** ** The requested sort as last ordering key (X12) *)

(** X12.  Every executed statement starts with the same eight selected
    columns and ends with ORDER BY, the score keys of its branch, the
    requested ordering and LIMIT/OFFSET: the requested sort is the only
    ordering key in the filter-only branch and the last one, after
    [semantic_score] or after [rank] and [fuzzy_score], in the others. *)
Theorem requested_sort_is_last_key
    (embed : embedding_service) (p : params) (s : strategy) (pl : plan) :
  search embed p = Executed s pl ->
  (exists (columns : string) (rest : sqltext),
     plan_sql pl = Lit (select_columns ++ columns) :: rest)
  /\ exists (before : sqltext) (i : nat),
       plan_sql pl
       = before
         ++ [Lit (nl ++ "        ORDER BY " ++ score_keys s)]
         ++ orderBy (sort p)
         ++ limit_offset i
       /\ placeholders before ++ [i; i + 1] = placeholders (plan_sql pl).
Proof.
  intros Hrun. pose proof (placeholders_orderBy (sort p)) as Hob.
  unfold search in Hrun.
  destruct (semanticEnabled p && truthy (query p)).
  - destruct (embed (query p)) as [embedding|]; [|discriminate Hrun].
    injection Hrun as <- <-. cbn [plan_sql semantic_plan]. unfold semantic_sql.
    split; [now eexists; eexists|].
    lazymatch goal with
    | |- exists before i, ?A ++ ?W ++ _ = _ /\ _ => exists (A ++ W)
    end.
    exists (paramIndex (build_filters p) + 1).
    split; [now rewrite <- app_assoc|].
    rewrite !placeholders_app, Hob, placeholders_limit_offset.
    cbn [placeholders app]. rewrite <- ?app_assoc. reflexivity.
  - destruct (truthy (query p)).
    + injection Hrun as <- <-. cbn [plan_sql fulltext_plan].
      unfold fulltext_body, fulltext_order.
      destruct (searchCondition p (build_filters p)) as [cond b'].
      split; [now eexists; eexists|].
      exists (fulltext_projection
              ++ fulltext_where (whereClause (build_filters p)) cond).
      exists (paramIndex b').
      split; [now rewrite <- !app_assoc|].
      rewrite !placeholders_app, Hob, placeholders_limit_offset.
      cbn [placeholders app]. rewrite <- ?app_assoc. reflexivity.
    + injection Hrun as <- <-. cbn [plan_sql filter_only_plan].
      unfold filter_only_sql.
      split; [now eexists; eexists|].
      lazymatch goal with
      | |- exists before i, ?A ++ ?W ++ _ = _ /\ _ => exists (A ++ W)
      end.
      exists (paramIndex (build_filters p)).
      split; [now rewrite <- app_assoc|].
      rewrite !placeholders_app, Hob, placeholders_limit_offset.
      cbn [placeholders app]. rewrite <- ?app_assoc. reflexivity.
Qed.

Lemma requested_sort_is_last_key_witness :
  search no_embedding scenario_B
  = Executed FullText
      (fulltext_plan scenario_B (build_filters scenario_B)
         (orderBy (sort scenario_B)))
  /\ exists (before : sqltext) (i : nat),
       plan_sql (fulltext_plan scenario_B (build_filters scenario_B)
                   (orderBy (sort scenario_B)))
       = before
         ++ [Lit (nl ++ "        ORDER BY " ++ score_keys FullText)]
         ++ orderBy (sort scenario_B)
         ++ limit_offset i.
Proof.
  split; [reflexivity|].
  destruct (requested_sort_is_last_key no_embedding scenario_B FullText _
              eq_refl) as (_ & before & i & H & _).
  exists before, i. exact H.
Defined.

(** * C9: determinism *)

Lemma search_same_embedding (embed1 embed2 : embedding_service) (p : params) :
  (semanticEnabled p && truthy (query p) = true ->
   embed1 (query p) = embed2 (query p)) ->
  search embed1 p = search embed2 p.
Proof.
  intros He. unfold search.
  destruct (semanticEnabled p && truthy (query p)); [|reflexivity].
  now rewrite (He eq_refl).
Qed.

Lemma no_store_call_among_embedding_calls (p : params) :
  filter is_query_call (embedding_calls p) = [].
Proof.
  unfold embedding_calls.
  destruct (semanticEnabled p && truthy (query p)); reflexivity.
Qed.

Lemma store_calls_of_handler
    (row : Type) (c : collaborators row) (rq : request_query) :
  store_calls (handler c rq)
  = match compiled (search (service c) (destructure rq)) with
    | Some (sql, vals) => [CallQuery sql vals]
    | None => []
    end.
Proof.
  unfold store_calls, handler.
  destruct (search (service c) (destructure rq)) as [s pl|s] eqn:Hrun.
  - rewrite (search_rows_executed row c _ s pl Hrun).
    cbn [compiled plan_of option_map].
    destruct (db_query c (render (plan_sql pl)) (plan_values pl));
      cbn [snd]; rewrite !filter_app, no_store_call_among_embedding_calls;
      reflexivity.
  - destruct (search_rows_failed row c _ s Hrun) as (_ & m & _ & Hrows).
    rewrite Hrows. reflexivity.
Qed.

(** C9.  Compiling the same request twice hands the store the same
    statement text and the same parameter list.  What a run of the handler
    passes to the store is the compiled statement of the request, and it
    depends on the request and, in the semantic branch, on the embedding
    returned for the query, and on nothing else: not on the clock, not on
    what the store answers or on its failing, not on the other answers or
    the error messages of the embedding service, and not on the requests
    handled before. *)
Theorem store_call_depends_on_request_only
    (row : Type) (c1 c2 : collaborators row) (rq : request_query) :
  let p := destructure rq in
  (semanticEnabled p && truthy (query p) = true ->
   service c1 (query p) = service c2 (query p)) ->
  store_calls (handler c1 rq) = store_calls (handler c2 rq)
  /\ store_calls (handler c1 rq)
     = match compiled (search (service c1) p) with
       | Some (sql, vals) => [CallQuery sql vals]
       | None => []
       end
  /\ forall before1 before2 : list (collaborators row * request_query),
       last (map store_calls (serve (before1 ++ [(c1, rq)]))) []
       = last (map store_calls (serve (before2 ++ [(c2, rq)]))) [].
Proof.
  intros p He.
  assert (Hsame : store_calls (handler c1 rq) = store_calls (handler c2 rq)).
  { rewrite !store_calls_of_handler. fold p.
    now rewrite (search_same_embedding _ _ p He). }
  split; [exact Hsame|]. split; [apply store_calls_of_handler|].
  intros before1 before2. unfold serve.
  rewrite !map_app, !map_map. cbn [map fst snd].
  rewrite !last_last. exact Hsame.
Qed.

Lemma store_call_depends_on_request_only_witness :
  (semanticEnabled (destructure semantic_request)
   && truthy (query (destructure semantic_request)) = true ->
   service store_up (query (destructure semantic_request))
   = service store_down (query (destructure semantic_request)))
  /\ store_calls (handler store_up semantic_request)
     = store_calls (handler store_down semantic_request)
  /\ fst (handler store_up semantic_request)
     <> fst (handler store_down semantic_request)
  /\ List.length (store_calls (handler store_up semantic_request)) = 1.
Proof.
  assert (He : semanticEnabled (destructure semantic_request)
               && truthy (query (destructure semantic_request)) = true ->
               service store_up (query (destructure semantic_request))
               = service store_down (query (destructure semantic_request)))
    by (intros _; reflexivity).
  split; [exact He|].
  destruct (store_call_depends_on_request_only nat store_up store_down
              semantic_request He) as (Hsame & _ & _).
  split; [exact Hsame|]. split; [discriminate | reflexivity].
Defined.
